(** * ARTEMIS service worker (sw.js): a shallow embedding and its properties

    The worker reacts to three host events (install, activate, fetch).  The
    host objects it talks to (CacheStorage, Cache, fetch, Response) are
    modelled as operations of a small promise monad over an explicit world:
    the cache storage, the consumed response bodies, the log of host calls
    and the detached (un-awaited) stores. *)

From Stdlib Require Import ZArith Ascii.
From stdpp Require Import gmap strings list.

Local Open Scope Z_scope.

(** ** JavaScript strings *)

(** [String.prototype.endsWith(search)]: with [start = length - searchLength],
    false when [start < 0], else compares the code units from [start]. *)
Definition endsWith (s search : string) : bool :=
  let len := String.length s in
  let searchLength := String.length search in
  if (len <? searchLength)%nat then false
  else bool_decide (String.substring (len - searchLength) searchLength s = search).

(** ** Data model *)

(** The parts of [new URL(request.url)] the worker reads. *)
Record URL := mkURL {
  href : string;
  hostname : string;
  pathname : string;
}.

(** A [Request]: its method and its URL (already parsed). *)
Record Request := mkRequest {
  method : string;
  url : URL;
}.

(** What a cache entry keeps of a response: the snapshot. *)
Record Snapshot := mkSnapshot {
  status : Z;
  body : string;
}.

(** A [Response] object: an identity (objects are shared by reference and
    their body is a single-read stream) and the data it carries. *)
Record Response := mkResponse {
  rid : nat;
  data : Snapshot;
}.

(** [response.ok]: status in the range 200-299. *)
Definition ok_status (s : Z) : bool := (200 <=? s) && (s <=? 299).

Definition ok (r : Response) : bool := ok_status (status (data r)).

#[global] Instance Snapshot_eq_dec : EqDecision Snapshot.
Proof. solve_decision. Defined.
#[global] Instance Response_eq_dec : EqDecision Response.
Proof. solve_decision. Defined.

(** The argument of a [fetch] call: a URL string with or without
    [{ mode: 'cors' }], or a request object. *)
Inductive FetchArg :=
| FetchUrl (u : string)
| FetchUrlCors (u : string)
| FetchRequest (r : Request).

(** A settled promise. *)
Inductive Settled (A : Type) :=
| Fulfilled (a : A)
| Rejected (e : string).
Arguments Fulfilled {A} a.
Arguments Rejected {A} e.

(** The values the install callbacks resolve to. *)
Inductive JSValue := undefined | null.

(** One cache partition: request key (URL) to snapshot. *)
Abbreviation Cache := (gmap string Snapshot).

(** [CacheStorage]: the named partitions, in creation order. *)
Abbreviation CacheStorage := (list (string * Cache)).

(** A store started but not awaited by the handler that started it. *)
Inductive Task :=
| TaskOpenThenPut (name key : string) (r : Response)
| TaskPut (name key : string) (r : Response).

(** Host calls, logged in the order the model performs them. *)
Inductive Event :=
| EvFetch (a : FetchArg)
| EvCachesOpen (name : string)
| EvCachesKeys
| EvCachesDelete (name : string)
| EvCachesMatch (key : string)
| EvCacheMatch (name key : string)
| EvCachePut (name key : string) (r : nat)
| EvClone (src dst : nat)
| EvDeliver (r : nat)
| EvSkipWaiting
| EvClientsClaim.

(** The world: the cache storage; the heap of response objects, where entry
    [i] tells whether the body of the object with identity [i] has been read
    ([bodyUsed]); the log; the detached stores not yet run. *)
Record World := mkWorld {
  caches : CacheStorage;
  heap : list bool;
  log : list Event;
  pending : list Task;
}.

(** The environment of one event: what the network answers to each fetch
    (a rejection is a network-level failure) and which stores the host's
    cache refuses. *)
Record Env := mkEnv {
  network : FetchArg -> Settled Snapshot;
  put_refused : string -> string -> Snapshot -> bool;
}.

(** ** Promises: state passing with rejection *)

Definition Promise (A : Type) : Type := World -> Settled A * World.

Definition resolve {A} (a : A) : Promise A := fun w => (Fulfilled a, w).
Definition reject {A} (e : string) : Promise A := fun w => (Rejected e, w).

(** [p.then(f)] *)
Definition then_ {A B} (p : Promise A) (f : A -> Promise B) : Promise B :=
  fun w => match p w with
           | (Fulfilled a, w') => f a w'
           | (Rejected e, w') => (Rejected e, w')
           end.

(** [p.catch(f)] *)
Definition catch {A} (p : Promise A) (f : string -> Promise A) : Promise A :=
  fun w => match p w with
           | (Fulfilled a, w') => (Fulfilled a, w')
           | (Rejected e, w') => f e w'
           end.

Notation "'await' x := p 'in' q" := (then_ p (fun x => q))
  (at level 10, x name, p at level 100, q at level 200).

(** [Promise.allSettled]: every promise runs; the result never rejects. *)
Fixpoint settle_each {A} (ps : list (Promise A)) (w : World)
  : list (Settled A) * World :=
  match ps with
  | [] => ([], w)
  | p :: ps' =>
      let '(r, w1) := p w in
      let '(rs, w2) := settle_each ps' w1 in
      (r :: rs, w2)
  end.

Definition allSettled {A} (ps : list (Promise A)) : Promise (list (Settled A)) :=
  fun w => let '(rs, w') := settle_each ps w in (Fulfilled rs, w').

(** [Promise.all]: every promise runs (they are already started); the result
    rejects with the first rejection. *)
Fixpoint all {A} (ps : list (Promise A)) : Promise (list A) :=
  fun w => match ps with
           | [] => (Fulfilled [], w)
           | p :: ps' =>
               let '(r, w1) := p w in
               let '(rs, w2) := all ps' w1 in
               match r, rs with
               | Fulfilled a, Fulfilled l => (Fulfilled (a :: l), w2)
               | Rejected e, _ => (Rejected e, w2)
               | Fulfilled _, Rejected e => (Rejected e, w2)
               end
           end.

(** ** The host: cache storage *)

Fixpoint cs_find (name : string) (cs : CacheStorage) : option Cache :=
  match cs with
  | [] => None
  | (n, c) :: cs' => if decide (n = name) then Some c else cs_find name cs'
  end.

(** Open by name: idempotent, a missing partition is created empty, last. *)
Definition cs_open (name : string) (cs : CacheStorage) : CacheStorage :=
  match cs_find name cs with
  | Some _ => cs
  | None => cs ++ [(name, ∅)]
  end.

(** Write one entry of the partition [name]; a handle whose partition is gone
    writes nowhere. *)
Fixpoint cs_put (name key : string) (d : Snapshot) (cs : CacheStorage)
  : CacheStorage :=
  match cs with
  | [] => []
  | (n, c) :: cs' =>
      if decide (n = name) then (n, <[key := d]> c) :: cs'
      else (n, c) :: cs_put name key d cs'
  end.

Definition cs_delete (name : string) (cs : CacheStorage) : CacheStorage :=
  filter (λ p, p.1 ≠ name) cs.

Definition cs_keys (cs : CacheStorage) : list string := cs.*1.

(** [CacheStorage.match]: the partitions are searched in creation order. *)
Fixpoint cs_match (key : string) (cs : CacheStorage) : option Snapshot :=
  match cs with
  | [] => None
  | (_, c) :: cs' =>
      match c !! key with
      | Some d => Some d
      | None => cs_match key cs'
      end
  end.

(** The entry of [key] in the partition [name], if both exist. *)
Definition entry (name key : string) (cs : CacheStorage) : option Snapshot :=
  c ← cs_find name cs; c !! key.

(** ** The host: operations on the world *)

Definition emit (e : Event) (w : World) : World :=
  mkWorld (caches w) (heap w) (log w ++ [e]) (pending w).

Definition set_caches (cs : CacheStorage) (w : World) : World :=
  mkWorld cs (heap w) (log w) (pending w).

(** [response.bodyUsed] *)
Definition bodyUsed (r : Response) (w : World) : bool :=
  bool_decide (heap w !! rid r = Some true).

Definition consume (r : Response) (w : World) : World :=
  mkWorld (caches w) (<[rid r := true]> (heap w)) (log w) (pending w).

(** A new response object, its body unread. *)
Definition alloc (d : Snapshot) (w : World) : Response * World :=
  (mkResponse (length (heap w)) d,
   mkWorld (caches w) (heap w ++ [false]) (log w) (pending w)).

Definition detach (t : Task) : Promise unit :=
  fun w => (Fulfilled tt,
            mkWorld (caches w) (heap w) (log w) (pending w ++ [t])).

(** [fetch(arg)] *)
Definition fetch (env : Env) (a : FetchArg) : Promise Response :=
  fun w =>
    let w1 := emit (EvFetch a) w in
    match network env a with
    | Fulfilled d => let '(r, w2) := alloc d w1 in (Fulfilled r, w2)
    | Rejected e => (Rejected e, w1)
    end.

(** [response.clone()]: throws a TypeError when the body was already read. *)
Definition clone (r : Response) : Promise Response :=
  fun w =>
    if bodyUsed r w then (Rejected "TypeError: body already used", w)
    else let '(c, w1) := alloc (data r) w in
         (Fulfilled c, emit (EvClone (rid r) (rid c)) w1).

(** [caches.open(name)]: the handle of a partition is its name. *)
Definition caches_open (name : string) : Promise string :=
  fun w => (Fulfilled name,
            set_caches (cs_open name (caches w)) (emit (EvCachesOpen name) w)).

(** [caches.keys()] *)
Definition caches_keys : Promise (list string) :=
  fun w => (Fulfilled (cs_keys (caches w)), emit EvCachesKeys w).

(** [caches.delete(name)]: resolves to whether the partition existed. *)
Definition caches_delete (name : string) : Promise bool :=
  fun w => (Fulfilled (bool_decide (is_Some (cs_find name (caches w)))),
            set_caches (cs_delete name (caches w)) (emit (EvCachesDelete name) w)).

Definition found (o : option Snapshot) : Promise (option Response) :=
  fun w => match o with
           | Some d => let '(r, w1) := alloc d w in (Fulfilled (Some r), w1)
           | None => (Fulfilled None, w)
           end.

(** [caches.match(request)]: resolves to [undefined] ([None]) on a miss. *)
Definition caches_match (key : string) : Promise (option Response) :=
  fun w => found (cs_match key (caches w)) (emit (EvCachesMatch key) w).

(** [cache.match(request)] *)
Definition cache_match (cache key : string) : Promise (option Response) :=
  fun w => found (entry cache key (caches w)) (emit (EvCacheMatch cache key) w).

(** [cache.put(key, response)]: rejects when the body was already read or when
    the host refuses the store; otherwise reads the body and writes the entry. *)
Definition cache_put (env : Env) (cache key : string) (r : Response)
  : Promise JSValue :=
  fun w =>
    let w1 := emit (EvCachePut cache key (rid r)) w in
    if bodyUsed r w1 then (Rejected "TypeError: body already used", w1)
    else if put_refused env cache key (data r) then (Rejected "put refused", w1)
    else (Fulfilled undefined,
          set_caches (cs_put cache key (data r) (caches w1)) (consume r w1)).

(** ** The worker (sw.js) *)

(** What the fetch listener leaves with the event: nothing (the request takes
    the normal network path) or the settled promise given to [respondWith]. *)
Inductive Intercept :=
| NotIntercepted
| RespondWith (r : Settled (option Response)).

(** What the page gets. *)
Inductive Delivery :=
| PassedThrough
| Served (r : Response)
| NetworkError.

Section Worker.

(** [const CACHE_VERSION]; the source sets it to 'v1' (below, after the
    section), the worker is read for any tag. *)
Variable CACHE_VERSION : string.

Definition STATIC_CACHE : string := "artemis-static-" +:+ CACHE_VERSION.
Definition CDN_CACHE : string := "artemis-cdn-" +:+ CACHE_VERSION.
Definition ALL_CACHES : list string := [STATIC_CACHE; CDN_CACHE].

Definition STATIC_ASSETS : list string :=
  [ "./artemis.html";
    "./artemis_ja.html" ].

Definition CDN_PREFETCH : list string :=
  [ "https://cdn.plot.ly/plotly-2.27.0.min.js";
    "https://d3js.org/d3.v7.min.js";
    "https://cdn.jsdelivr.net/npm/d3-cloud@1.2.7/build/d3.layout.cloud.min.js";
    "https://cdn.jsdelivr.net/npm/d3-sankey@0.12.3/dist/d3-sankey.min.js";
    "https://cdn.jsdelivr.net/npm/papaparse@5.4.1/papaparse.min.js";
    "https://cdn.jsdelivr.net/npm/xlsx@0.18.5/dist/xlsx.full.min.js" ].

Variable env : Env.

(** *** install *)

(** [fetch(url).then(r => r.ok ? cache.put(url, r) : null).catch(() => null)] *)
Definition precache_static (cache url : string) : Promise JSValue :=
  catch
    (await r := fetch env (FetchUrl url) in
     if ok r then cache_put env cache url r else resolve null)
    (fun _ => resolve null).

(** [fetch(url, { mode: 'cors' })
      .then(r => { if (r.ok) return cache.put(url, r); })
      .catch(() => null)] *)
Definition precache_cdn (cache url : string) : Promise JSValue :=
  catch
    (await r := fetch env (FetchUrlCors url) in
     if ok r then cache_put env cache url r else resolve undefined)
    (fun _ => resolve null).

(** The promise handed to [event.waitUntil].  On the host the fetches of
    both lists are in flight together; here the callbacks run one after the
    other, in list order, the static list first. *)
Definition install_work : Promise (list (list (Settled JSValue))) :=
  all [ (await cache := caches_open STATIC_CACHE in
         allSettled (map (precache_static cache) STATIC_ASSETS));
        (await cache := caches_open CDN_CACHE in
         allSettled (map (precache_cdn cache) CDN_PREFETCH)) ].

(** The install listener: [waitUntil] on the work, then [skipWaiting()]. *)
Definition oninstall : Promise (list (list (Settled JSValue))) :=
  fun w => let '(r, w1) := install_work w in (r, emit EvSkipWaiting w1).

(** *** activate *)

(** [caches.keys().then(names => Promise.all(
      names.filter(n => !ALL_CACHES.includes(n)).map(n => caches.delete(n))))] *)
Definition activate_work : Promise (list bool) :=
  await names := caches_keys in
  all (map caches_delete
           (filter (λ n, negb (bool_decide (n ∈ ALL_CACHES)) = true) names)).

(** The activate listener: [waitUntil] on the work, then [clients.claim()]. *)
Definition onactivate : Promise (list bool) :=
  fun w => let '(r, w1) := activate_work w in (r, emit EvClientsClaim w1).

(** *** fetch *)

(** The promise of the network-first branch:
    [fetch(request).then(response => { clone; open-then-put; return response })
                   .catch(() => caches.match(request))] *)
Definition network_first (request : Request) : Promise (option Response) :=
  catch
    (await response := fetch env (FetchRequest request) in
     await clone := clone response in
     await _ := detach (TaskOpenThenPut STATIC_CACHE (href (url request)) clone) in
     resolve (Some response))
    (fun _ => caches_match (href (url request))).

Definition isCacheable (u : URL) : bool :=
  bool_decide (hostname u = "pyscript.net") ||
  bool_decide (hostname u = "cdn.jsdelivr.net") ||
  bool_decide (hostname u = "cdn.plot.ly") ||
  bool_decide (hostname u = "d3js.org") ||
  bool_decide (hostname u = "huggingface.co") ||
  bool_decide (hostname u = "cdn-lfs.huggingface.co").

(** The promise of the cache-first branch. *)
Definition cache_first (request : Request) : Promise (option Response) :=
  await cache := caches_open CDN_CACHE in
  await cached := cache_match cache (href (url request)) in
  match cached with
  | Some hit => resolve (Some hit)
  | None =>
      await response := fetch env (FetchRequest request) in
      await _ := (if bool_decide (status (data response) = 200)
                  then await copy := clone response in
                       detach (TaskPut cache (href (url request)) copy)
                  else resolve tt) in
      resolve (Some response)
  end.

(** [event.respondWith(promise)] *)
Definition respondWith (p : Promise (option Response)) (w : World)
  : Intercept * World :=
  let '(r, w') := p w in (RespondWith r, w').

(** The fetch listener: only GET requests; HTML files network-first; the
    allow-listed hosts cache-first; anything else is left alone. *)
Definition onfetch (request : Request) (w : World) : Intercept * World :=
  let url := url request in
  if negb (bool_decide (method request = "GET")) then (NotIntercepted, w)
  else if endsWith (pathname url) ".html"
       then respondWith (network_first request) w
  else if isCacheable url
       then respondWith (cache_first request) w
  else (NotIntercepted, w).

(** *** what happens around the listeners *)

(** The host hands the response to the page, reading its body; a promise
    that rejected or resolved to no response is a network error. *)
Definition deliver (i : Intercept) (w : World) : Delivery * World :=
  match i with
  | NotIntercepted => (PassedThrough, w)
  | RespondWith (Fulfilled (Some r)) =>
      if bodyUsed r w then (NetworkError, w)
      else (Served r, consume r (emit (EvDeliver (rid r)) w))
  | RespondWith (Fulfilled None) => (NetworkError, w)
  | RespondWith (Rejected _) => (NetworkError, w)
  end.

Definition run_task (t : Task) : Promise JSValue :=
  match t with
  | TaskOpenThenPut name key r =>
      await c := caches_open name in cache_put env c key r
  | TaskPut cache key r => cache_put env cache key r
  end.

(** The detached stores run; a rejection of theirs is seen by nobody. *)
Definition drain (w : World) : World :=
  fold_left (fun w t => (run_task t w).2) (pending w)
            (mkWorld (caches w) (heap w) (log w) []).

End Worker.

(** The tag of the source. *)
Definition CACHE_VERSION : string := "v1".

(** The whole life of one intercepted request, from a world with no store in
    flight: the listener runs, the host hands the response over, and the
    detached stores complete. *)
Definition dispatch_fetch (v : string) (env : Env) (request : Request) (w : World)
  : Delivery * World :=
  let '(i, w1) := onfetch v env request w in
  let '(d, w2) := deliver i w1 in
  (d, drain env w2).

(** What the install step writes for one listed URL into the partition
    [cache]: the fetched snapshot, when the fetch resolved with an OK status
    and the host accepted the store; nothing otherwise. *)
Definition install_writes (env : Env) (a : FetchArg) (cache url : string)
  : option Snapshot :=
  match network env a with
  | Fulfilled d =>
      if ok_status (status d) && negb (put_refused env cache url d)
      then Some d else None
  | Rejected _ => None
  end.

(** The effect of one install callback on the storage. *)
Definition precached (env : Env) (cache : string) (arg : string → FetchArg)
    (cs : CacheStorage) (url : string) : CacheStorage :=
  match install_writes env (arg url) cache url with
  | Some d => cs_put cache url d cs
  | None => cs
  end.

(** The hostname of an absolute URL string [scheme://host[:port][/path]]:
    what follows the first "://", up to the next [/], [:], [?] or [#]. *)
Fixpoint after_scheme (s : string) : string :=
  match s with
  | EmptyString => EmptyString
  | String ":"%char (String "/"%char (String "/"%char rest)) => rest
  | String _ s' => after_scheme s'
  end.

Fixpoint host_part (s : string) : string :=
  match s with
  | EmptyString => EmptyString
  | String c s' =>
      if bool_decide (c ∈ ["/"; ":"; "?"; "#"]%char) then EmptyString
      else String c (host_part s')
  end.

Definition hostname_of (u : string) : string := host_part (after_scheme u).

(** ** Summaries of one intercepted request *)

(** What the page gets, as data: [None] when the request was left alone,
    [Some None] for a network error, [Some (Some d)] when served [d]. *)
Definition answer_of (d : Delivery) : option (option Snapshot) :=
  match d with
  | PassedThrough => None
  | NetworkError => Some None
  | Served r => Some (Some (data r))
  end.

(** The answer of the fetch listener as a function of the network and of the
    storage, read off the two branches of the listener. *)
Definition fetch_answer (v : string) (env : Env) (request : Request)
    (cs : CacheStorage) : option (option Snapshot) :=
  let key := href (url request) in
  if negb (bool_decide (method request = "GET")) then None
  else if endsWith (pathname (url request)) ".html" then
    Some (match network env (FetchRequest request) with
          | Fulfilled d => Some d
          | Rejected _ => cs_match key cs
          end)
  else if isCacheable (url request) then
    Some (match entry (CDN_CACHE v) key cs with
          | Some hit => Some hit
          | None =>
              match network env (FetchRequest request) with
              | Fulfilled d => Some d
              | Rejected _ => None
              end
          end)
  else None.

(** The storage after one intercepted request and its detached store. *)
Definition fetch_effect (v : string) (env : Env) (request : Request)
    (cs : CacheStorage) : CacheStorage :=
  let key := href (url request) in
  if negb (bool_decide (method request = "GET")) then cs
  else if endsWith (pathname (url request)) ".html" then
    match network env (FetchRequest request) with
    | Fulfilled d =>
        if put_refused env (STATIC_CACHE v) key d
        then cs_open (STATIC_CACHE v) cs
        else cs_put (STATIC_CACHE v) key d (cs_open (STATIC_CACHE v) cs)
    | Rejected _ => cs
    end
  else if isCacheable (url request) then
    match entry (CDN_CACHE v) key cs with
    | Some _ => cs_open (CDN_CACHE v) cs
    | None =>
        match network env (FetchRequest request) with
        | Fulfilled d =>
            if bool_decide (status d = 200) &&
               negb (put_refused env (CDN_CACHE v) key d)
            then cs_put (CDN_CACHE v) key d (cs_open (CDN_CACHE v) cs)
            else cs_open (CDN_CACHE v) cs
        | Rejected _ => cs_open (CDN_CACHE v) cs
        end
    end
  else cs.

(** The fetch calls one intercepted request makes. *)
Definition fetch_calls (v : string) (request : Request) (cs : CacheStorage)
  : list FetchArg :=
  if negb (bool_decide (method request = "GET")) then []
  else if endsWith (pathname (url request)) ".html" then [FetchRequest request]
  else if isCacheable (url request) then
    match entry (CDN_CACHE v) (href (url request)) cs with
    | Some _ => []
    | None => [FetchRequest request]
    end
  else [].

(** The fetch calls of a log, in order. *)
Definition fetches (l : list Event) : list FetchArg :=
  omap (fun e => match e with EvFetch a => Some a | _ => None end) l.

(** A stream of intercepted requests, each with the environment it meets,
    handled one after the other. *)
Definition handle_all (v : string) (traffic : list (Env * Request)) (w : World)
  : World :=
  fold_left (fun w er => (dispatch_fetch v er.1 er.2 w).2) traffic w.

(** ** Sample environments, requests and worlds *)

Module Sample.

Definition accept_all : string → string → Snapshot → bool := fun _ _ _ => false.

Definition offline : Env :=
  mkEnv (fun _ => Rejected "TypeError: Failed to fetch") accept_all.

(** Every fetch is answered by the same snapshot. *)
Definition answering (d : Snapshot) : Env := mkEnv (fun _ => Fulfilled d) accept_all.

Definition page : Snapshot := mkSnapshot 200 "<html>ARTEMIS</html>".
Definition error_page : Snapshot := mkSnapshot 500 "Internal Server Error".
Definition script : Snapshot := mkSnapshot 200 "/* d3 */".

Definition html_request : Request :=
  mkRequest "GET"
    (mkURL "https://artemis.example/artemis.html" "artemis.example" "/artemis.html").

Definition cdn_request : Request :=
  mkRequest "GET"
    (mkURL "https://cdn.jsdelivr.net/npm/pyodide/pyodide.js" "cdn.jsdelivr.net"
           "/npm/pyodide/pyodide.js").

Definition post_request : Request :=
  mkRequest "POST"
    (mkURL "https://artemis.example/artemis.html" "artemis.example" "/artemis.html").

Definition model_request : Request :=
  mkRequest "GET"
    (mkURL "https://huggingface.co/org/model/resolve/main/model.onnx"
           "huggingface.co" "/org/model/resolve/main/model.onnx").

(** The second listed page cannot be reached; every other fetch is
    answered by the page. *)
Definition one_page_down : Env :=
  mkEnv (fun a => match a with
                  | FetchUrl "./artemis_ja.html" => Rejected "TypeError: Failed to fetch"
                  | _ => Fulfilled page
                  end)
        accept_all.

Definition empty_world : World := mkWorld [] [] [] [].

(** Partitions of two versions side by side, before v2 activates. *)
Definition two_versions_world : World :=
  mkWorld [ ("artemis-static-v1", ∅); ("artemis-cdn-v1", ∅);
            ("artemis-static-v2", ∅); ("artemis-cdn-v2", ∅) ]
          [] [] [].

(** The worker of tag v1 is running when the partitions of a later version
    already exist and hold the page. *)
Definition updating_world : World :=
  mkWorld [ ("artemis-static-v1", ∅);
            ("artemis-cdn-v1", ∅);
            ("artemis-static-v2", {[ "https://artemis.example/artemis.html" := page ]}) ]
          [] [] [].

(** The static partition of v1 holds the page. *)
Definition visited_world : World :=
  mkWorld [ ("artemis-static-v1", {[ "https://artemis.example/artemis.html" := page ]});
            ("artemis-cdn-v1", ∅) ]
          [] [] [].

(** The static partition of v1 holds a listed page from an earlier install
    under the same tag. *)
Definition reinstall_world : World :=
  mkWorld [ ("artemis-static-v1", {[ "./artemis.html" := page ]});
            ("artemis-cdn-v1", ∅) ]
          [] [] [].

(** The third-party partition of v1 holds a script. *)
Definition cached_world : World :=
  mkWorld [ ("artemis-static-v1", ∅);
            ("artemis-cdn-v1",
             {[ "https://cdn.jsdelivr.net/npm/pyodide/pyodide.js" := script ]}) ]
          [] [] [].

(** A script of the prefetch list, as the page requests it. *)
Definition d3_request : Request :=
  mkRequest "GET"
    (mkURL "https://d3js.org/d3.v7.min.js" "d3js.org" "/d3.v7.min.js").

Definition not_found : Snapshot := mkSnapshot 404 "Not Found".

(** Some traffic: a third-party script answered with an error page, the
    page fetched, then the script again while the network is down. *)
Definition traffic : list (Env * Request) :=
  [ (answering error_page, cdn_request);
    (answering page, html_request);
    (offline, cdn_request) ].

(** Two partitions of the running version and one the page made. *)
Definition page_cache_world : World :=
  mkWorld [ ("artemis-static-v1", ∅);
            ("artemis-cdn-v1", ∅);
            ("user-notes", {[ "https://artemis.example/note/1" := page ]}) ]
          [] [] [].

End Sample.

(** * Properties *)

(** ** Strings *)

Lemma substring_all (s : string) : String.substring 0 (String.length s) s = s.
Proof. induction s as [|a s IH]; simpl; [done | by rewrite IH]. Qed.

Lemma substring_append_r (p t : string) :
  String.substring (String.length p) (String.length t) (p +:+ t) = t.
Proof. induction p as [|a p IH]; simpl; [apply substring_all | exact IH]. Qed.

Lemma length_append (p t : string) :
  String.length (p +:+ t) = (String.length p + String.length t)%nat.
Proof. induction p as [|a p IH]; simpl; [done | by rewrite IH]. Qed.

Lemma split_at (n : nat) : forall s : string,
  (n <= String.length s)%nat ->
  s = String.substring 0 n s +:+ String.substring n (String.length s - n) s.
Proof.
  induction n as [|n IH]; intros s Hn.
  - rewrite Nat.sub_0_r, substring_all. by destruct s.
  - destruct s as [|a s]; [simpl in Hn; lia |].
    change (String a s =
            String a (String.substring 0 n s +:+
                      String.substring n (String.length s - n) s)).
    f_equal. apply IH. simpl in Hn. lia.
Qed.

(** [endsWith] holds exactly of the strings that are some prefix followed by
    the searched suffix. *)
Lemma endsWith_spec (s t : string) :
  endsWith s t = true <-> exists p, s = p +:+ t.
Proof.
  unfold endsWith. split.
  - destruct (String.length s <? String.length t)%nat eqn:E; [done |].
    apply Nat.ltb_ge in E. intros H%bool_decide_eq_true.
    exists (String.substring 0 (String.length s - String.length t) s).
    pose proof (split_at (String.length s - String.length t) s) as Hs.
    replace (String.length s - (String.length s - String.length t))%nat
      with (String.length t) in Hs by lia.
    rewrite H in Hs. apply Hs. lia.
  - intros [p ->]. rewrite length_append.
    destruct (_ <? _)%nat eqn:E; [apply Nat.ltb_lt in E; lia |].
    apply bool_decide_eq_true.
    replace (String.length p + String.length t - String.length t)%nat
      with (String.length p) by lia.
    apply substring_append_r.
Qed.

Lemma endsWith_false (s t : string) :
  endsWith s t = false <-> ~ exists p, s = p +:+ t.
Proof.
  rewrite <- endsWith_spec. destruct (endsWith s t); split; done.
Qed.

(** ** Cache storage *)

Section Storage.

Implicit Types (cs : CacheStorage) (name key : string) (d : Snapshot).

Lemma cs_find_app name cs cs' :
  cs_find name (cs ++ cs') =
    match cs_find name cs with Some c => Some c | None => cs_find name cs' end.
Proof.
  induction cs as [|[n c] cs IH]; simpl; [done |].
  by destruct (decide (n = name)).
Qed.

Lemma cs_find_open name name' cs :
  cs_find name' (cs_open name cs) =
    match cs_find name' cs with
    | Some c => Some c
    | None => if decide (name = name') then Some ∅ else None
    end.
Proof.
  unfold cs_open. destruct (cs_find name cs) as [c|] eqn:E.
  - destruct (cs_find name' cs) eqn:E'; [done |].
    destruct (decide (name = name')) as [->|]; congruence.
  - rewrite cs_find_app. simpl. by destruct (cs_find name' cs).
Qed.

Lemma cs_find_open_eq name cs : is_Some (cs_find name (cs_open name cs)).
Proof.
  rewrite cs_find_open. destruct (cs_find name cs); [by eexists |].
  rewrite decide_True by done. by eexists.
Qed.

Lemma entry_open name name' key cs :
  entry name' key (cs_open name cs) = entry name' key cs.
Proof.
  unfold entry. rewrite cs_find_open.
  destruct (cs_find name' cs); [done |].
  by destruct (decide (name = name')).
Qed.

Lemma cs_match_app key cs cs' :
  cs_match key (cs ++ cs') =
    match cs_match key cs with Some d => Some d | None => cs_match key cs' end.
Proof.
  induction cs as [|[n c] cs IH]; simpl; [done |].
  by destruct (c !! key).
Qed.

Lemma cs_match_open name key cs :
  cs_match key (cs_open name cs) = cs_match key cs.
Proof.
  unfold cs_open. destruct (cs_find name cs); [done |].
  rewrite cs_match_app. simpl. rewrite lookup_empty.
  by destruct (cs_match key cs).
Qed.

Lemma cs_keys_open name cs :
  cs_keys (cs_open name cs) =
    if decide (is_Some (cs_find name cs)) then cs_keys cs
    else cs_keys cs ++ [name].
Proof.
  unfold cs_open, cs_keys. destruct (cs_find name cs) eqn:E.
  - by rewrite decide_True by eauto.
  - rewrite decide_False by (by intros [? ?]). by rewrite fmap_app.
Qed.

Lemma cs_find_put name name' key d cs :
  cs_find name' (cs_put name key d cs) =
    if decide (name = name') then <[key := d]> <$> cs_find name' cs
    else cs_find name' cs.
Proof.
  induction cs as [|[n c] cs IH]; simpl.
  - by destruct (decide (name = name')).
  - destruct (decide (n = name)) as [->|Hn]; simpl.
    + by destruct (decide (name = name')).
    + destruct (decide (n = name')) as [->|Hn']; simpl; [|exact IH].
      by rewrite decide_False by congruence.
Qed.

(** A store writes its own entry, when the partition exists, and no other. *)
Lemma entry_put name name' key key' d cs :
  entry name' key' (cs_put name key d cs) =
    if decide (name = name' ∧ key = key' ∧ is_Some (cs_find name cs))
    then Some d else entry name' key' cs.
Proof.
  unfold entry. rewrite cs_find_put.
  destruct (decide (name = name')) as [->|Hne].
  - destruct (cs_find name' cs) as [c|] eqn:E; simpl.
    + destruct (decide (key = key')) as [->|Hk].
      * rewrite decide_True by eauto. apply lookup_insert_eq.
      * rewrite decide_False by tauto. by apply lookup_insert_ne.
    + rewrite decide_False; [done |]. intros (_ & _ & [? ?]). done.
  - by rewrite decide_False by tauto.
Qed.

Lemma cs_keys_put name key d cs : cs_keys (cs_put name key d cs) = cs_keys cs.
Proof.
  unfold cs_keys. induction cs as [|[n c] cs IH]; simpl; [done |].
  destruct (decide (n = name)); simpl; [done | by f_equal].
Qed.

Lemma cs_find_delete name name' cs :
  cs_find name' (cs_delete name cs) =
    if decide (name = name') then None else cs_find name' cs.
Proof.
  unfold cs_delete. induction cs as [|[n c] cs IH]; simpl.
  - by destruct (decide (name = name')).
  - rewrite filter_cons. simpl. destruct (decide (n ≠ name)) as [Hn|Hn]; simpl.
    + rewrite IH. repeat case_decide; simplify_eq; done.
    + apply dec_stable in Hn as ->. rewrite IH.
      repeat case_decide; simplify_eq; done.
Qed.

Lemma cs_keys_delete name cs :
  cs_keys (cs_delete name cs) = filter (λ n, n ≠ name) (cs_keys cs).
Proof.
  unfold cs_delete, cs_keys. induction cs as [|[n c] cs IH]; simpl; [done |].
  rewrite !filter_cons. simpl.
  destruct (decide (n ≠ name)); simpl; by f_equal.
Qed.

Lemma cs_find_None name cs : cs_find name cs = None ↔ name ∉ cs_keys cs.
Proof.
  unfold cs_keys. induction cs as [|[n c] cs IH]; simpl.
  - split; [intros _; apply not_elem_of_nil | done].
  - rewrite not_elem_of_cons. destruct (decide (n = name)) as [->|Hn].
    + split; [done | tauto].
    + rewrite IH. split; [intros; split; [congruence | done] | tauto].
Qed.

(** With distinct partition names, a request that at most one partition
    holds is found by the storage-wide lookup in that partition. *)
Lemma cs_match_only name key cs :
  NoDup (cs_keys cs) →
  (∀ n, n ≠ name → entry n key cs = None) →
  cs_match key cs = entry name key cs.
Proof.
  unfold cs_keys, entry. induction cs as [|[n c] cs IH]; simpl; [done |].
  intros [Hn Hnd]%NoDup_cons Hother.
  destruct (decide (n = name)) as [->|Hne]; simpl.
  - destruct (c !! key) eqn:E; [done |].
    rewrite IH; [| done |].
    + apply cs_find_None in Hn. unfold cs_keys in Hn. by rewrite Hn.
    + intros m Hm. specialize (Hother m Hm). simpl in Hother.
      destruct (decide (name = m)); [congruence | done].
  - pose proof (Hother n Hne) as Hc. simpl in Hc.
    rewrite decide_True in Hc by done. simpl in Hc. rewrite Hc.
    apply IH; [done |]. intros m Hm. specialize (Hother m Hm). simpl in Hother.
    destruct (decide (n = m)) as [->|]; [|done].
    apply cs_find_None in Hn. unfold cs_keys in Hn. by rewrite Hn.
Qed.

End Storage.

(** ** Response objects *)

Lemma lookup_fresh (h : list bool) : (h ++ [false]) !! length h = Some false.
Proof. by rewrite list_lookup_middle. Qed.

Lemma lookup_fresh2 (h : list bool) :
  ((h ++ [false]) ++ [false]) !! S (length h) = Some false.
Proof.
  replace (S (length h)) with (length (h ++ [false])).
  - apply lookup_fresh.
  - rewrite length_app. simpl. lia.
Qed.

Lemma length_fresh (h : list bool) : length (h ++ [false]) = S (length h).
Proof. rewrite length_app. simpl. lia. Qed.

Lemma lookup_fresh_old (h : list bool) :
  ((h ++ [false]) ++ [false]) !! length h = Some false.
Proof. rewrite lookup_app_l; [apply lookup_fresh |]. rewrite length_app. simpl. lia. Qed.

(** ** The fetch listener: classification *)

Lemma isCacheable_spec (u : URL) :
  isCacheable u = true ↔
  hostname u ∈ ["pyscript.net"; "cdn.jsdelivr.net"; "cdn.plot.ly"; "d3js.org";
                "huggingface.co"; "cdn-lfs.huggingface.co"].
Proof.
  unfold isCacheable. rewrite !orb_true_iff, !bool_decide_eq_true.
  rewrite !elem_of_cons, elem_of_nil. tauto.
Qed.

(** C1. Classification of an intercepted request.  A GET request whose path
    ends in ".html" is answered by the network-first promise; a GET request
    whose path does not end in ".html" and whose hostname is one of the six
    allow-listed hosts is answered by the cache-first promise; for every
    other request (not GET, or neither ".html" nor allow-listed) the listener
    returns without calling respondWith and leaves the world as it was, so
    the page's request takes the normal network path. *)
Theorem onfetch_classification (v : string) (env : Env) (request : Request) (w : World) :
  let is_get := method request = "GET" in
  let html := ∃ p, pathname (url request) = p +:+ ".html" in
  let listed :=
    hostname (url request) ∈
      ["pyscript.net"; "cdn.jsdelivr.net"; "cdn.plot.ly"; "d3js.org";
       "huggingface.co"; "cdn-lfs.huggingface.co"] in
  (is_get ∧ html →
     onfetch v env request w = respondWith (network_first v env request) w) ∧
  (is_get ∧ ¬ html ∧ listed →
     onfetch v env request w = respondWith (cache_first v env request) w) ∧
  (¬ is_get ∨ (¬ html ∧ ¬ listed) →
     onfetch v env request w = (NotIntercepted, w) ∧
     deliver NotIntercepted w = (PassedThrough, w)).
Proof.
  intros is_get html listed. subst is_get html listed. unfold onfetch.
  rewrite <- endsWith_spec, <- isCacheable_spec.
  destruct (decide (method request = "GET")) as [Hm|Hm].
  - rewrite (bool_decide_eq_true_2 _ Hm). simpl.
    destruct (endsWith (pathname (url request)) ".html");
      destruct (isCacheable (url request)); simpl;
      (split; [|split]); intros Hc; try done; exfalso; intuition congruence.
  - rewrite (bool_decide_eq_false_2 _ Hm). simpl.
    (split; [|split]); intros Hc; try done; exfalso; intuition congruence.
Qed.

Lemma onfetch_network_first v env request w :
  method request = "GET" →
  endsWith (pathname (url request)) ".html" = true →
  onfetch v env request w = respondWith (network_first v env request) w.
Proof.
  intros Hm Hp. unfold onfetch. by rewrite (bool_decide_eq_true_2 _ Hm), Hp.
Qed.

Lemma onfetch_cache_first v env request w :
  method request = "GET" →
  endsWith (pathname (url request)) ".html" = false →
  isCacheable (url request) = true →
  onfetch v env request w = respondWith (cache_first v env request) w.
Proof.
  intros Hm Hp Hc. unfold onfetch.
  by rewrite (bool_decide_eq_true_2 _ Hm), Hp, Hc.
Qed.

(** Unfolding of the promise combinators and of the host operations. *)
Ltac run :=
  unfold respondWith, network_first, cache_first, precache_static, precache_cdn,
    run_task, then_, catch, resolve, reject, detach, fetch, clone, found,
    caches_open, caches_match, cache_match, cache_put, caches_keys,
    caches_delete, alloc, bodyUsed, consume, set_caches, emit;
  simpl.

(** ** The cache-first branch *)

(** C2. Cache-first hit.  When the third-party partition holds the snapshot R
    under the key of a request that the listener classifies as cache-first,
    the listener answers with a response carrying R, and the only host calls
    it makes are the opening of the partition and the lookup: no fetch is
    issued, nothing is stored, and the page is served that response. *)
Theorem cache_first_hit (v : string) (env : Env) (request : Request) (w : World)
    (R : Snapshot) :
  method request = "GET" →
  endsWith (pathname (url request)) ".html" = false →
  isCacheable (url request) = true →
  entry (CDN_CACHE v) (href (url request)) (caches w) = Some R →
  let hit := mkResponse (length (heap w)) R in
  let i := (onfetch v env request w).1 in
  let w' := (onfetch v env request w).2 in
  i = RespondWith (Fulfilled (Some hit)) ∧
  log w' = log w ++ [EvCachesOpen (CDN_CACHE v);
                     EvCacheMatch (CDN_CACHE v) (href (url request))] ∧
  caches w' = caches w ∧
  pending w' = pending w ∧
  (deliver i w').1 = Served hit.
Proof.
  intros Hm Hp Hc HR. rewrite onfetch_cache_first by done.
  assert (cs_open (CDN_CACHE v) (caches w) = caches w) as Ho.
  { unfold cs_open, entry in *. by destruct (cs_find (CDN_CACHE v) (caches w)). }
  run. rewrite Ho, HR. simpl. rewrite <- app_assoc. simpl.
  repeat split. unfold deliver, bodyUsed. simpl. by rewrite lookup_fresh.
Qed.

(** C7. Cache-first, miss, network failure.  When the third-party partition
    has no entry for the request and the fetch rejects with error e, the
    promise given to respondWith rejects with the same e; after the fetch the
    listener makes no further host call (no lookup in any partition), starts
    no store, and the page sees a network error. *)
Theorem cache_first_network_failure (v : string) (env : Env) (request : Request)
    (w : World) (e : string) :
  method request = "GET" →
  endsWith (pathname (url request)) ".html" = false →
  isCacheable (url request) = true →
  entry (CDN_CACHE v) (href (url request)) (caches w) = None →
  network env (FetchRequest request) = Rejected e →
  let i := (onfetch v env request w).1 in
  let w' := (onfetch v env request w).2 in
  i = RespondWith (Rejected e) ∧
  log w' = log w ++ [EvCachesOpen (CDN_CACHE v);
                     EvCacheMatch (CDN_CACHE v) (href (url request));
                     EvFetch (FetchRequest request)] ∧
  (∀ name key, entry name key (caches w') = entry name key (caches w)) ∧
  heap w' = heap w ∧
  pending w' = pending w ∧
  (deliver i w').1 = NetworkError.
Proof.
  intros Hm Hp Hc Hmiss Hnet. rewrite onfetch_cache_first by done.
  run. rewrite entry_open, Hmiss. simpl. rewrite Hnet. simpl.
  rewrite <- !app_assoc. simpl. repeat split.
  intros name key. apply entry_open.
Qed.

(** C4. Cache-first, miss, network answer d.  The live response is what the
    page is served, whatever the status and whether or not the host accepts
    the store.  If the status is not 200, no store is started and no entry of
    any partition changes.  If the status is 200, a clone (a second object
    with the same data) is handed to a detached put on the third-party
    partition under the request's key, and once that put has run the entry is
    d unless the host refused it. *)
Theorem cache_first_store_gating (v : string) (env : Env) (request : Request)
    (w : World) (d : Snapshot) :
  method request = "GET" →
  endsWith (pathname (url request)) ".html" = false →
  isCacheable (url request) = true →
  entry (CDN_CACHE v) (href (url request)) (caches w) = None →
  network env (FetchRequest request) = Fulfilled d →
  pending w = [] →
  let key := href (url request) in
  let live := mkResponse (length (heap w)) d in
  let copy := mkResponse (S (length (heap w))) d in
  let w1 := (onfetch v env request w).2 in
  let w' := (dispatch_fetch v env request w).2 in
  (onfetch v env request w).1 = RespondWith (Fulfilled (Some live)) ∧
  (dispatch_fetch v env request w).1 = Served live ∧
  (status d ≠ 200 →
     pending w1 = [] ∧
     ∀ name k, entry name k (caches w') = entry name k (caches w)) ∧
  (status d = 200 →
     pending w1 = [TaskPut (CDN_CACHE v) key copy] ∧
     entry (CDN_CACHE v) key (caches w') =
       if put_refused env (CDN_CACHE v) key d then None else Some d).
Proof.
  intros Hm Hp Hc Hmiss Hnet Hq. unfold dispatch_fetch.
  rewrite onfetch_cache_first by done.
  run. rewrite entry_open, Hmiss. simpl. rewrite Hnet. simpl.
  destruct (decide (status d = 200)) as [Hs|Hs].
  - rewrite (bool_decide_eq_true_2 _ Hs). simpl. rewrite lookup_fresh. simpl.
    unfold deliver, bodyUsed. simpl. rewrite lookup_fresh_old. simpl.
    rewrite Hq. unfold drain. simpl. run. rewrite !length_fresh.
    rewrite list_lookup_insert_ne by lia. rewrite lookup_fresh2. simpl.
    split; [done |]. split; [done |]. split; intros Hs'; [done |].
    split; [done |].
    destruct (put_refused env (CDN_CACHE v) (href (url request)) d); simpl.
    + by rewrite entry_open.
    + rewrite entry_put. rewrite decide_True; [done |].
      split; [done |]. split; [done |]. apply cs_find_open_eq.
  - rewrite (bool_decide_eq_false_2 _ Hs). simpl.
    unfold deliver, bodyUsed. simpl. rewrite lookup_fresh. simpl.
    rewrite Hq. unfold drain. simpl.
    split; [done |]. split; [done |]. split; intros Hs'; [| done].
    split; [done |]. intros name k. apply entry_open.
Qed.

(** ** The network-first branch *)

(** C3, as the code has it.  For a GET request whose path ends in ".html",
    when the fetch rejects the listener asks the whole cache storage
    (caches.match: every partition, in creation order) for the request.  The
    first snapshot found is what the page is served; when no partition holds
    one, the promise resolves to no response and the page sees a network
    error, with no synthetic fallback.  With distinct partition names, and
    when no partition other than the static one holds an entry for the
    request, the snapshot found is the static partition's. *)
Theorem network_first_offline (v : string) (env : Env) (request : Request)
    (w : World) (e : string) :
  method request = "GET" →
  endsWith (pathname (url request)) ".html" = true →
  network env (FetchRequest request) = Rejected e →
  let key := href (url request) in
  let i := (onfetch v env request w).1 in
  let w' := (onfetch v env request w).2 in
  log w' = log w ++ [EvFetch (FetchRequest request); EvCachesMatch key] ∧
  caches w' = caches w ∧
  pending w' = pending w ∧
  match cs_match key (caches w) with
  | Some snap =>
      i = RespondWith (Fulfilled (Some (mkResponse (length (heap w)) snap))) ∧
      (deliver i w').1 = Served (mkResponse (length (heap w)) snap)
  | None =>
      i = RespondWith (Fulfilled None) ∧ (deliver i w').1 = NetworkError
  end ∧
  (NoDup (cs_keys (caches w)) →
   (∀ name, name ≠ STATIC_CACHE v → entry name key (caches w) = None) →
   cs_match key (caches w) = entry (STATIC_CACHE v) key (caches w)).
Proof.
  intros Hm Hp Hnet. rewrite onfetch_network_first by done.
  run. rewrite Hnet. simpl. rewrite <- !app_assoc. simpl.
  destruct (cs_match (href (url request)) (caches w)) as [snap|] eqn:E; simpl.
  - split; [done |]. split; [done |]. split; [done |].
    split; [| intros Hnd Ho; rewrite <- E; by apply cs_match_only].
    split; [done |]. unfold deliver, bodyUsed. simpl. by rewrite lookup_fresh.
  - split; [done |]. split; [done |]. split; [done |].
    split; [done |]. intros Hnd Ho. rewrite <- E. by apply cs_match_only.
Qed.

(** C3, as stated, fails: the static partition of the running worker (v1)
    has no snapshot of the page, the network is down, and yet the request
    does not fail, because the storage-wide lookup finds the page in another
    partition. *)
Lemma offline_fallback_other_partition :
  ¬ (∀ (v : string) (env : Env) (request : Request) (w : World) (e : string),
       method request = "GET" →
       endsWith (pathname (url request)) ".html" = true →
       network env (FetchRequest request) = Rejected e →
       let i := (onfetch v env request w).1 in
       let w' := (onfetch v env request w).2 in
       match entry (STATIC_CACHE v) (href (url request)) (caches w) with
       | Some snap => ∃ r, i = RespondWith (Fulfilled (Some r)) ∧ data r = snap
       | None => (deliver i w').1 = NetworkError
       end).
Proof.
  intros H.
  specialize (H CACHE_VERSION Sample.offline Sample.html_request Sample.updating_world
                "TypeError: Failed to fetch" eq_refl eq_refl eq_refl).
  vm_compute in H. discriminate H.
Qed.

(** The listener on the success path of the network-first branch. *)
Lemma network_first_online v env request w d :
  method request = "GET" →
  endsWith (pathname (url request)) ".html" = true →
  network env (FetchRequest request) = Fulfilled d →
  onfetch v env request w =
    (RespondWith (Fulfilled (Some (mkResponse (length (heap w)) d))),
     mkWorld (caches w) ((heap w ++ [false]) ++ [false])
       (log w ++ [EvFetch (FetchRequest request);
                  EvClone (length (heap w)) (S (length (heap w)))])
       (pending w ++ [TaskOpenThenPut (STATIC_CACHE v) (href (url request))
                        (mkResponse (S (length (heap w))) d)])).
Proof.
  intros Hm Hp Hnet. rewrite onfetch_network_first by done.
  run. rewrite Hnet. simpl. rewrite lookup_fresh. simpl.
  by rewrite <- !app_assoc, length_fresh.
Qed.

(** The listener on the miss-then-200 path of the cache-first branch. *)
Lemma cache_first_online_200 v env request w d :
  method request = "GET" →
  endsWith (pathname (url request)) ".html" = false →
  isCacheable (url request) = true →
  entry (CDN_CACHE v) (href (url request)) (caches w) = None →
  network env (FetchRequest request) = Fulfilled d →
  status d = 200 →
  onfetch v env request w =
    (RespondWith (Fulfilled (Some (mkResponse (length (heap w)) d))),
     mkWorld (cs_open (CDN_CACHE v) (caches w)) ((heap w ++ [false]) ++ [false])
       (log w ++ [EvCachesOpen (CDN_CACHE v);
                  EvCacheMatch (CDN_CACHE v) (href (url request));
                  EvFetch (FetchRequest request);
                  EvClone (length (heap w)) (S (length (heap w)))])
       (pending w ++ [TaskPut (CDN_CACHE v) (href (url request))
                        (mkResponse (S (length (heap w))) d)])).
Proof.
  intros Hm Hp Hc Hmiss Hnet Hs. rewrite onfetch_cache_first by done.
  run. rewrite entry_open, Hmiss. simpl. rewrite Hnet. simpl.
  rewrite (bool_decide_eq_true_2 _ Hs). simpl. rewrite lookup_fresh. simpl.
  by rewrite <- !app_assoc, length_fresh.
Qed.

(** What a put leaves in the storage when the body it is given is unread. *)
Lemma cache_put_unread env cache key r w :
  heap w !! rid r = Some false →
  caches (cache_put env cache key r w).2 =
    if put_refused env cache key (data r) then caches w
    else cs_put cache key (data r) (caches w).
Proof.
  intros Hr. run. rewrite Hr. simpl.
  by destruct (put_refused env cache key (data r)).
Qed.

(** A body is read once: the object a put has stored cannot be served. *)
Lemma cache_put_then_deliver env cache key r w :
  heap w !! rid r = Some false →
  put_refused env cache key (data r) = false →
  deliver (RespondWith (Fulfilled (Some r))) (cache_put env cache key r w).2
  = (NetworkError, (cache_put env cache key r w).2).
Proof.
  intros Hr Hacc. run. rewrite Hr, Hacc. simpl.
  unfold deliver, bodyUsed. simpl.
  rewrite list_lookup_insert_eq; [done |]. by eapply lookup_lt_Some.
Qed.

(** C8. Clone before consumption.  On both paths that return a response and
    store it (network-first when the fetch resolves; cache-first on a miss
    answered with status 200), the listener clones the response as its next
    host call after the fetch, when neither body has been read; it returns
    the live object and hands the other object to the detached store.
    Whichever of the two happens first afterwards, the page is served the
    live response and the store reads an unread body: the entry becomes the
    fetched snapshot unless the host refuses the store. *)
Theorem clone_before_consumption (v : string) (env : Env) (request : Request)
    (w : World) (d : Snapshot) :
  method request = "GET" →
  network env (FetchRequest request) = Fulfilled d →
  pending w = [] →
  endsWith (pathname (url request)) ".html" = true ∨
  (endsWith (pathname (url request)) ".html" = false ∧
   isCacheable (url request) = true ∧
   entry (CDN_CACHE v) (href (url request)) (caches w) = None ∧
   status d = 200) →
  let key := href (url request) in
  let name := if endsWith (pathname (url request)) ".html"
              then STATIC_CACHE v else CDN_CACHE v in
  let live := mkResponse (length (heap w)) d in
  let copy := mkResponse (S (length (heap w))) d in
  let stored := if put_refused env name key d
                then entry name key (caches w) else Some d in
  let i := (onfetch v env request w).1 in
  let w1 := (onfetch v env request w).2 in
  i = RespondWith (Fulfilled (Some live)) ∧
  (pending w1 = [TaskOpenThenPut name key copy] ∨
   pending w1 = [TaskPut name key copy]) ∧
  (∃ l, log w1 = log w ++ l ++ [EvFetch (FetchRequest request);
                                EvClone (rid live) (rid copy)]) ∧
  bodyUsed live w1 = false ∧
  bodyUsed copy w1 = false ∧
  ((deliver i w1).1 = Served live ∧
   entry name key (caches (drain env (deliver i w1).2)) = stored) ∧
  ((deliver i (drain env w1)).1 = Served live ∧
   entry name key (caches (drain env w1)) = stored).
Proof.
  intros Hm Hnet Hq [Hp | (Hp & Hc & Hmiss & Hs)]; rewrite Hp; cbv zeta.
  - rewrite (network_first_online v env request w d) by done. rewrite Hq. simpl.
    unfold bodyUsed, deliver, drain. simpl. run. unfold bodyUsed. simpl.
    rewrite lookup_fresh_old, lookup_fresh2. simpl.
    rewrite list_lookup_insert_ne by lia. rewrite lookup_fresh2. simpl.
    split; [done |]. split; [by left |]. split; [by exists [] |].
    split; [done |]. split; [done |].
    destruct (put_refused env (STATIC_CACHE v) (href (url request)) d); simpl.
    + rewrite lookup_fresh_old. simpl. by rewrite entry_open.
    + rewrite list_lookup_insert_ne by lia. rewrite lookup_fresh_old. simpl.
      rewrite entry_put, decide_True; [done |].
      split; [done |]. split; [done |]. apply cs_find_open_eq.
  - rewrite (cache_first_online_200 v env request w d) by done. rewrite Hq. simpl.
    unfold bodyUsed, deliver, drain. simpl. run. unfold bodyUsed. simpl.
    rewrite lookup_fresh_old, lookup_fresh2. simpl.
    rewrite list_lookup_insert_ne by lia. rewrite lookup_fresh2. simpl.
    split; [done |]. split; [by right |].
    split; [by exists [EvCachesOpen (CDN_CACHE v);
                       EvCacheMatch (CDN_CACHE v) (href (url request))] |].
    split; [done |]. split; [done |].
    destruct (put_refused env (CDN_CACHE v) (href (url request)) d); simpl.
    + rewrite lookup_fresh_old. simpl. by rewrite entry_open.
    + rewrite list_lookup_insert_ne by lia. rewrite lookup_fresh_old. simpl.
      rewrite entry_put, decide_True; [done |].
      split; [done |]. split; [done |]. apply cs_find_open_eq.
Qed.

(** The listener on the failure path of the network-first branch. *)
Lemma onfetch_html_offline v env request w e :
  method request = "GET" →
  endsWith (pathname (url request)) ".html" = true →
  network env (FetchRequest request) = Rejected e →
  onfetch v env request w =
    respondWith (found (cs_match (href (url request)) (caches w)))
      (emit (EvCachesMatch (href (url request)))
         (emit (EvFetch (FetchRequest request)) w)).
Proof.
  intros Hm Hp Hnet. rewrite onfetch_network_first by done.
  unfold respondWith, network_first, catch, then_, fetch, caches_match.
  by rewrite Hnet.
Qed.

(** One whole network-first request whose fetch resolves. *)
Lemma dispatch_network_first_online v env request w d :
  method request = "GET" →
  endsWith (pathname (url request)) ".html" = true →
  network env (FetchRequest request) = Fulfilled d →
  pending w = [] →
  let w2 := (dispatch_fetch v env request w).2 in
  (dispatch_fetch v env request w).1 = Served (mkResponse (length (heap w)) d) ∧
  pending w2 = [] ∧
  caches w2 =
    if put_refused env (STATIC_CACHE v) (href (url request)) d
    then cs_open (STATIC_CACHE v) (caches w)
    else cs_put (STATIC_CACHE v) (href (url request)) d
           (cs_open (STATIC_CACHE v) (caches w)).
Proof.
  intros Hm Hp Hnet Hq. unfold dispatch_fetch.
  rewrite (network_first_online v env request w d) by done. rewrite Hq. simpl.
  unfold bodyUsed, deliver, drain. simpl. run. unfold bodyUsed. simpl.
  rewrite lookup_fresh_old. simpl.
  rewrite list_lookup_insert_ne by lia. rewrite lookup_fresh2. simpl.
  by destruct (put_refused env (STATIC_CACHE v) (href (url request)) d).
Qed.

Lemma NoDup_cs_keys_open name (cs : CacheStorage) :
  NoDup (cs_keys cs) → NoDup (cs_keys (cs_open name cs)).
Proof.
  intros Hnd. rewrite cs_keys_open. case_decide as Hf; [done |].
  apply NoDup_app. split; [done |]. split; [| apply NoDup_singleton].
  intros x Hx ->%list_elem_of_singleton. apply Hf.
  destruct (cs_find name cs) eqn:E; [by eexists |].
  by apply cs_find_None in E.
Qed.

(** C10. Network-first stores whatever the network answers.  For a GET
    request whose path ends in ".html" and any snapshot d the fetch resolves
    to, whatever its status (404 and 500 included), the listener returns the
    live response, which the page is served, and hands a clone to a detached
    open-then-put on the static partition under the request's key; no status
    is tested.  Once the put has run, the entry is d unless the host refused
    the store, whatever the partition held before.  If the store was
    accepted, partition names are distinct and no other partition holds the
    request, then a later request for the same page while the network is
    down is served d. *)
Theorem network_first_stores_any_status (v : string) (env : Env)
    (request : Request) (w : World) (d : Snapshot) :
  method request = "GET" →
  endsWith (pathname (url request)) ".html" = true →
  network env (FetchRequest request) = Fulfilled d →
  pending w = [] →
  let key := href (url request) in
  let live := mkResponse (length (heap w)) d in
  let copy := mkResponse (S (length (heap w))) d in
  let w1 := (onfetch v env request w).2 in
  let w2 := (dispatch_fetch v env request w).2 in
  (onfetch v env request w).1 = RespondWith (Fulfilled (Some live)) ∧
  pending w1 = [TaskOpenThenPut (STATIC_CACHE v) key copy] ∧
  (dispatch_fetch v env request w).1 = Served live ∧
  entry (STATIC_CACHE v) key (caches w2) =
    (if put_refused env (STATIC_CACHE v) key d
     then entry (STATIC_CACHE v) key (caches w) else Some d) ∧
  (put_refused env (STATIC_CACHE v) key d = false →
   NoDup (cs_keys (caches w)) →
   (∀ name, name ≠ STATIC_CACHE v → entry name key (caches w) = None) →
   ∀ (env' : Env) (e : string),
     network env' (FetchRequest request) = Rejected e →
     (dispatch_fetch v env' request w2).1 = Served (mkResponse (length (heap w2)) d)).
Proof.
  intros Hm Hp Hnet Hq. cbv zeta.
  destruct (dispatch_network_first_online v env request w d Hm Hp Hnet Hq)
    as (Hserved & Hq2 & Hcs).
  rewrite Hserved, Hcs. clear Hserved.
  rewrite (network_first_online v env request w d) by done. rewrite Hq. simpl.
  split; [done |]. split; [done |]. split; [done |]. split.
  - destruct (put_refused env (STATIC_CACHE v) (href (url request)) d).
    + apply entry_open.
    + rewrite entry_put, decide_True; [done |].
      split; [done |]. split; [done |]. apply cs_find_open_eq.
  - intros Hacc Hnd Hother env' e Hoff. rewrite Hacc in Hcs.
    set (w2 := (dispatch_fetch v env request w).2) in *.
    unfold dispatch_fetch at 1.
    rewrite (onfetch_html_offline v env' request w2 e) by done.
    assert (cs_match (href (url request)) (caches w2) = Some d) as ->.
    { rewrite (cs_match_only (STATIC_CACHE v)).
      - rewrite Hcs, entry_put, decide_True; [done |].
        split; [done |]. split; [done |]. apply cs_find_open_eq.
      - rewrite Hcs, cs_keys_put. by apply NoDup_cs_keys_open.
      - intros name Hname. rewrite Hcs, entry_put, decide_False by (intros (? & _); congruence).
        rewrite entry_open. by apply Hother. }
    run. unfold deliver, bodyUsed. simpl. by rewrite lookup_fresh.
Qed.

(** ** activate *)

Lemma all_caches_delete (names : list string) (w : World) :
  (∃ bs, (all (map caches_delete names) w).1 = Fulfilled bs) ∧
  caches (all (map caches_delete names) w).2 =
    fold_left (fun cs n => cs_delete n cs) names (caches w).
Proof.
  revert w. induction names as [|n names IH]; intros w; simpl.
  - split; [by eexists | done].
  - set (w1 := set_caches (cs_delete n (caches w)) (emit (EvCachesDelete n) w)).
    destruct (IH w1) as [[bs Hbs] Hcs].
    destruct (all (map caches_delete names) w1) as [r w2]. simpl in *.
    subst r. split; [by eexists | done].
Qed.

Lemma cs_find_delete_all (names : list string) (name : string) :
  ∀ cs : CacheStorage,
    cs_find name (fold_left (fun cs n => cs_delete n cs) names cs) =
      if decide (name ∈ names) then None else cs_find name cs.
Proof.
  induction names as [|n names IH]; intros cs.
  - done.
  - cbn [fold_left]. rewrite IH, cs_find_delete.
    destruct (decide (name ∈ names)) as [Hin|Hin].
    + case_decide as Hc; [done |]. exfalso. apply Hc. by right.
    + destruct (decide (n = name)) as [->|Hne].
      * case_decide as Hc; [done |]. exfalso. apply Hc. by left.
      * case_decide as Hc; [| done].
        apply elem_of_cons in Hc as [?|?]; congruence.
Qed.

Lemma cache_names_distinct (v v' : string) :
  STATIC_CACHE v' ≠ CDN_CACHE v ∧
  (v' ≠ v → STATIC_CACHE v' ≠ STATIC_CACHE v ∧ CDN_CACHE v' ≠ CDN_CACHE v).
Proof.
  unfold STATIC_CACHE, CDN_CACHE. split.
  - intros H. cbv [String.append] in H. simplify_eq.
  - intros Hv. split; intros H; apply Hv; (by eapply String.app_inj).
Qed.

Lemma not_current (v v' : string) :
  v' ≠ v → (STATIC_CACHE v' ∉ ALL_CACHES v) ∧ (CDN_CACHE v' ∉ ALL_CACHES v).
Proof.
  intros Hv. unfold ALL_CACHES.
  destruct (cache_names_distinct v v') as [H1 H2].
  destruct (cache_names_distinct v' v) as [H3 _].
  destruct (H2 Hv) as [H4 H5].
  split; intros Hin; repeat (apply elem_of_cons in Hin as [Hin|Hin]);
    try congruence; by apply elem_of_nil in Hin.
Qed.

(** C5. After activate.  The activate step completes; afterwards no
    partition exists under a name other than the two current-version names,
    and each of the two current-version partitions is exactly what it was
    before (kept if it existed, with its entries).  In particular, for any
    other version tag v' (for instance v' = v1 when the worker's tag is v2)
    the partitions artemis-static-v' and artemis-cdn-v' no longer exist. *)
Theorem activate_cleans (v : string) (w : World) :
  let w' := (onactivate v w).2 in
  (∃ bs, (onactivate v w).1 = Fulfilled bs) ∧
  (∀ name, name ∉ [STATIC_CACHE v; CDN_CACHE v] →
     cs_find name (caches w') = None ∧ name ∉ cs_keys (caches w')) ∧
  (∀ name, name ∈ [STATIC_CACHE v; CDN_CACHE v] →
     cs_find name (caches w') = cs_find name (caches w)) ∧
  (∀ v', v' ≠ v →
     cs_find (STATIC_CACHE v') (caches w') = None ∧
     cs_find (CDN_CACHE v') (caches w') = None).
Proof.
  cbv zeta. unfold onactivate, activate_work, then_, caches_keys.
  set (stale := filter _ (cs_keys (caches w))).
  destruct (all_caches_delete stale (emit EvCachesKeys w)) as [[bs Hbs] Hcs].
  destruct (all (map caches_delete stale) (emit EvCachesKeys w)) as [r w2].
  simpl in *. subst r. rewrite Hcs. clear Hcs.
  assert (∀ name, name ∈ stale ↔
            (name ∉ ALL_CACHES v) ∧ name ∈ cs_keys (caches w)) as Hstale.
  { intros name. subst stale. rewrite list_elem_of_filter.
    rewrite negb_true_iff, bool_decide_eq_false. done. }
  assert (∀ name, name ∉ ALL_CACHES v →
            cs_find name (fold_left (fun cs n => cs_delete n cs) stale (caches w))
            = None) as Hgone.
  { intros name Hname. rewrite cs_find_delete_all.
    case_decide as Hin; [done |]. apply cs_find_None. intros Hk.
    apply Hin, Hstale. done. }
  split; [by eexists |]. split; [| split].
  - intros name Hname. split; [by apply Hgone |].
    apply cs_find_None. by apply Hgone.
  - intros name Hname. rewrite cs_find_delete_all.
    rewrite decide_False; [done |]. intros Hin%Hstale. by destruct Hin.
  - intros v' Hv. destruct (not_current v v' Hv). split; (by apply Hgone).
Qed.

(** ** install *)

Section Precache.

Variable env : Env.
Variable cache : string.

Lemma precache_static_run url w :
  (∃ x, (precache_static env cache url w).1 = Fulfilled x) ∧
  caches (precache_static env cache url w).2 = precached env cache FetchUrl (caches w) url.
Proof.
  unfold precached, install_writes. run.
  destruct (network env (FetchUrl url)) as [d|e]; simpl; [| by eauto].
  unfold ok. simpl. destruct (ok_status (status d)); simpl; [| by eauto].
  rewrite lookup_fresh. simpl.
  destruct (put_refused env cache url d); simpl; by eauto.
Qed.

Lemma precache_cdn_run url w :
  (∃ x, (precache_cdn env cache url w).1 = Fulfilled x) ∧
  caches (precache_cdn env cache url w).2 = precached env cache FetchUrlCors (caches w) url.
Proof.
  unfold precached, install_writes. run.
  destruct (network env (FetchUrlCors url)) as [d|e]; simpl; [| by eauto].
  unfold ok. simpl. destruct (ok_status (status d)); simpl; [| by eauto].
  rewrite lookup_fresh. simpl.
  destruct (put_refused env cache url d); simpl; by eauto.
Qed.

(** A batch of callbacks under allSettled: all of them run, each one fulfils,
    and the storage is folded through their effects. *)
Lemma settle_each_precache (f : string → Promise JSValue) arg urls :
  (∀ url w, (∃ x, (f url w).1 = Fulfilled x) ∧
            caches (f url w).2 = precached env cache arg (caches w) url) →
  ∀ w,
    Forall (λ r, ∃ x, r = Fulfilled x) (settle_each (map f urls) w).1 ∧
    caches (settle_each (map f urls) w).2 = fold_left (precached env cache arg) urls (caches w).
Proof.
  intros Hf. induction urls as [|url urls IH]; intros w; simpl.
  - split; [constructor | done].
  - destruct (Hf url w) as [[x Hx] Hcs].
    destruct (f url w) as [r w1]. simpl in *. subst r.
    destruct (IH w1) as [Hall Hfold].
    destruct (settle_each (map f urls) w1) as [rs w2]. simpl in *.
    split; [constructor; [by eexists | done] |].
    by rewrite Hfold, Hcs.
Qed.

Lemma cs_find_precached arg urls name :
  ∀ cs, is_Some (cs_find name (fold_left (precached env cache arg) urls cs)) ↔
        is_Some (cs_find name cs).
Proof.
  induction urls as [|url urls IH]; intros cs; simpl; [done |].
  rewrite IH. unfold precached.
  destruct (install_writes env (arg url) cache url); [| done].
  rewrite cs_find_put. case_decide; [| done].
  rewrite fmap_is_Some. done.
Qed.

(** The entries after a batch: a listed URL whose fetch was OK and whose
    store was accepted holds the fetched snapshot; every other entry of
    every partition is what it was. *)
Lemma entry_precached arg urls name key :
  ∀ cs, is_Some (cs_find cache cs) →
    entry name key (fold_left (precached env cache arg) urls cs) =
      if decide (name = cache ∧ key ∈ urls)
      then match install_writes env (arg key) cache key with
           | Some d => Some d
           | None => entry name key cs
           end
      else entry name key cs.
Proof.
  induction urls as [|url urls IH]; intros cs Hopen.
  - simpl. case_decide as H; [| done].
    destruct H as [_ H]. by apply elem_of_nil in H.
  - cbn [fold_left].
    assert (is_Some (cs_find cache (precached env cache arg cs url))) as Hopen'.
    { by apply (cs_find_precached arg [url] cache cs). }
    rewrite (IH _ Hopen').
    assert (entry name key (precached env cache arg cs url) =
              if decide (name = cache ∧ key = url)
              then match install_writes env (arg key) cache key with
                   | Some d => Some d
                   | None => entry name key cs
                   end
              else entry name key cs) as Hstep.
    { unfold precached.
      destruct (decide (name = cache ∧ key = url)) as [[-> ->]|Hk].
      - destruct (install_writes env (arg url) cache url); [| done].
        rewrite entry_put, decide_True; done.
      - destruct (install_writes env (arg url) cache url); [| done].
        rewrite entry_put, decide_False; [done |].
        intros (? & ? & _). apply Hk. done. }
    rewrite Hstep. clear Hstep IH.
    destruct (decide (name = cache ∧ key ∈ urls)) as [[-> Hin]|Hnin].
    + rewrite (decide_True (P := cache = cache ∧ key ∈ url :: urls));
        [| split; [done | by right]].
      destruct (install_writes env (arg key) cache key); [done |].
      case_decide; done.
    + destruct (decide (name = cache ∧ key = url)) as [[-> ->]|Hne].
      * rewrite decide_True; [done | split; [done | by left]].
      * rewrite decide_False; [done |].
        intros [-> [->|Hin]%elem_of_cons]; tauto.
Qed.

End Precache.

(** The storage after the install step: each partition is opened, then folded
    through the effects of its callbacks. *)
Lemma install_work_run (v : string) (env : Env) (w : World) :
  (∃ rs, (install_work v env w).1 = Fulfilled rs) ∧
  caches (install_work v env w).2 =
    fold_left (precached env (CDN_CACHE v) FetchUrlCors) CDN_PREFETCH
      (cs_open (CDN_CACHE v)
         (fold_left (precached env (STATIC_CACHE v) FetchUrl) STATIC_ASSETS
            (cs_open (STATIC_CACHE v) (caches w)))).
Proof.
  unfold install_work.
  generalize STATIC_ASSETS as pages, CDN_PREFETCH as scripts.
  intros pages scripts.
  unfold all, then_, caches_open, allSettled.
  set (w1 := set_caches (cs_open (STATIC_CACHE v) (caches w))
               (emit (EvCachesOpen (STATIC_CACHE v)) w)).
  destruct (settle_each_precache env (STATIC_CACHE v)
              (precache_static env (STATIC_CACHE v)) FetchUrl pages
              (precache_static_run env (STATIC_CACHE v)) w1) as [_ Hs].
  destruct (settle_each (map (precache_static env (STATIC_CACHE v)) pages) w1)
    as [rs1 w2].
  set (w3 := set_caches (cs_open (CDN_CACHE v) (caches w2))
               (emit (EvCachesOpen (CDN_CACHE v)) w2)).
  destruct (settle_each_precache env (CDN_CACHE v)
              (precache_cdn env (CDN_CACHE v)) FetchUrlCors scripts
              (precache_cdn_run env (CDN_CACHE v)) w3) as [_ Hc].
  destruct (settle_each (map (precache_cdn env (CDN_CACHE v)) scripts) w3)
    as [rs2 w4].
  simpl in *. split; [by eexists |]. by rewrite Hc, Hs.
Qed.

Lemma entry_install (v : string) (env : Env) (w : World) (name key : string) :
  entry name key (caches (oninstall v env w).2) =
    if decide (name = STATIC_CACHE v ∧ key ∈ STATIC_ASSETS)
    then match install_writes env (FetchUrl key) name key with
         | Some d => Some d
         | None => entry name key (caches w)
         end
    else if decide (name = CDN_CACHE v ∧ key ∈ CDN_PREFETCH)
    then match install_writes env (FetchUrlCors key) name key with
         | Some d => Some d
         | None => entry name key (caches w)
         end
    else entry name key (caches w).
Proof.
  unfold oninstall.
  destruct (install_work_run v env w) as [_ Hcs].
  destruct (install_work v env w) as [r w1].
  cbn [snd] in *. change (caches (emit EvSkipWaiting w1)) with (caches w1).
  rewrite Hcs. clear Hcs.
  rewrite entry_precached.
  2:{ apply cs_find_open_eq. }
  rewrite entry_open, entry_precached by apply cs_find_open_eq.
  rewrite entry_open.
  destruct (decide (name = STATIC_CACHE v ∧ key ∈ STATIC_ASSETS)) as [[-> Hin]|Hs].
  - rewrite decide_False; [done |].
    intros [Heq _]. by destruct (cache_names_distinct v v) as [Hd _].
  - destruct (decide (name = CDN_CACHE v ∧ key ∈ CDN_PREFETCH)) as [[-> Hin]|Hc];
      done.
Qed.

(** C6, as the code has it.  The install step always settles (fulfils),
    whatever the individual fetches do.  For each listed URL, of either
    list: if its fetch resolved with an OK status and the host accepted the
    store, its partition holds the fetched snapshot afterwards; otherwise
    (fetch rejected, status not OK, or store refused) install writes nothing
    for it and the entry is what it was before install, absent if it was
    absent.  The outcome for one URL depends on no other URL's fetch.  No
    other entry of any partition is changed. *)
Theorem install_best_effort (v : string) (env : Env) (w : World) :
  let w' := (oninstall v env w).2 in
  (∃ rs, (oninstall v env w).1 = Fulfilled rs) ∧
  (∀ url, url ∈ STATIC_ASSETS →
     entry (STATIC_CACHE v) url (caches w') =
       match network env (FetchUrl url) with
       | Fulfilled d =>
           if ok_status (status d) && negb (put_refused env (STATIC_CACHE v) url d)
           then Some d else entry (STATIC_CACHE v) url (caches w)
       | Rejected _ => entry (STATIC_CACHE v) url (caches w)
       end) ∧
  (∀ url, url ∈ CDN_PREFETCH →
     entry (CDN_CACHE v) url (caches w') =
       match network env (FetchUrlCors url) with
       | Fulfilled d =>
           if ok_status (status d) && negb (put_refused env (CDN_CACHE v) url d)
           then Some d else entry (CDN_CACHE v) url (caches w)
       | Rejected _ => entry (CDN_CACHE v) url (caches w)
       end) ∧
  (∀ name key,
     ¬ (name = STATIC_CACHE v ∧ key ∈ STATIC_ASSETS) →
     ¬ (name = CDN_CACHE v ∧ key ∈ CDN_PREFETCH) →
     entry name key (caches w') = entry name key (caches w)).
Proof.
  cbv zeta. split; [| split; [| split]].
  - unfold oninstall. destruct (install_work_run v env w) as [[rs Hrs] _].
    destruct (install_work v env w) as [r w1]. simpl in *. by eexists.
  - intros url Hin. rewrite entry_install, decide_True by done.
    unfold install_writes. destruct (network env (FetchUrl url)) as [d|e]; [| done].
    by destruct (ok_status (status d) && negb (put_refused env (STATIC_CACHE v) url d)).
  - intros url Hin. rewrite entry_install.
    rewrite decide_False.
    2:{ intros [Heq _]. by destruct (cache_names_distinct v v) as [Hd _]. }
    rewrite decide_True by done.
    unfold install_writes. destruct (network env (FetchUrlCors url)) as [d|e]; [| done].
    by destruct (ok_status (status d) && negb (put_refused env (CDN_CACHE v) url d)).
  - intros name key Hs Hc. by rewrite entry_install, !decide_False.
Qed.

(** C6, as stated, fails: the static partition already holds a listed page
    (an earlier install under the same tag), the network is down during this
    install, and the page is still present afterwards although its fetch
    failed. *)
Lemma install_keeps_earlier_entries :
  ¬ (∀ (v : string) (env : Env) (w : World) (url : string),
       url ∈ STATIC_ASSETS →
       (is_Some (entry (STATIC_CACHE v) url (caches (oninstall v env w).2)) ↔
        ∃ d, network env (FetchUrl url) = Fulfilled d ∧ ok_status (status d) = true)).
Proof.
  intros H.
  destruct (H CACHE_VERSION Sample.offline Sample.reinstall_world "./artemis.html")
    as [H1 _].
  { by left. }
  destruct H1 as (d & Hd & _); [| discriminate Hd].
  vm_compute. by eexists.
Qed.

(** ** Hosts served cache-first but never prefetched *)

(** One whole cache-first request: a miss answered with status 200. *)
Lemma dispatch_cache_first_200 v env request w d :
  method request = "GET" →
  endsWith (pathname (url request)) ".html" = false →
  isCacheable (url request) = true →
  entry (CDN_CACHE v) (href (url request)) (caches w) = None →
  network env (FetchRequest request) = Fulfilled d →
  status d = 200 →
  pending w = [] →
  caches (dispatch_fetch v env request w).2 =
    if put_refused env (CDN_CACHE v) (href (url request)) d
    then cs_open (CDN_CACHE v) (caches w)
    else cs_put (CDN_CACHE v) (href (url request)) d
           (cs_open (CDN_CACHE v) (caches w)).
Proof.
  intros Hm Hp Hc Hmiss Hnet Hs Hq. unfold dispatch_fetch.
  rewrite (cache_first_online_200 v env request w d) by done. rewrite Hq. simpl.
  unfold bodyUsed, deliver, drain. simpl. run. unfold bodyUsed. simpl.
  rewrite lookup_fresh_old. simpl.
  rewrite list_lookup_insert_ne by lia. rewrite lookup_fresh2. simpl.
  by destruct (put_refused env (CDN_CACHE v) (href (url request)) d).
Qed.

Lemma prefetch_hosts :
  map hostname_of CDN_PREFETCH =
    ["cdn.plot.ly"; "d3js.org"; "cdn.jsdelivr.net"; "cdn.jsdelivr.net";
     "cdn.jsdelivr.net"; "cdn.jsdelivr.net"].
Proof. reflexivity. Qed.

Lemma prefetch_not_huggingface (url : string) :
  url ∈ CDN_PREFETCH →
  hostname_of url ∉ ["huggingface.co"; "cdn-lfs.huggingface.co"].
Proof.
  intros Hin Hh.
  assert (hostname_of url ∈ map hostname_of CDN_PREFETCH) as Hm.
  { apply list_elem_of_fmap. by exists url. }
  rewrite prefetch_hosts in Hm.
  repeat (apply elem_of_cons in Hm as [Hm|Hm]);
    try (rewrite Hm in Hh;
         repeat (apply elem_of_cons in Hh as [Hh|Hh]); try discriminate Hh;
         by apply elem_of_nil in Hh).
  by apply elem_of_nil in Hm.
Qed.

(** C9. huggingface.co and cdn-lfs.huggingface.co are served cache-first (the
    allow-list test accepts both), and no URL of the install-time prefetch
    list has either as its hostname: the hostnames of that list are
    cdn.plot.ly, d3js.org and cdn.jsdelivr.net.  So the install step leaves
    the third-party partition's entry for any URL of those two hosts as it
    was, and such an entry appears at fetch time: a GET request to one of
    them that misses and is answered with status 200 is stored under its
    key once the host has accepted the detached put. *)
Theorem huggingface_lazy_only (v : string) (env : Env) (w : World) :
  let hf := ["huggingface.co"; "cdn-lfs.huggingface.co"] in
  (∀ u : URL, hostname u ∈ hf → isCacheable u = true) ∧
  (∀ url, url ∈ CDN_PREFETCH → hostname_of url ∉ hf) ∧
  (∀ key, hostname_of key ∈ hf →
     entry (CDN_CACHE v) key (caches (oninstall v env w).2) =
     entry (CDN_CACHE v) key (caches w)) ∧
  (∀ (request : Request) (d : Snapshot),
     method request = "GET" →
     endsWith (pathname (url request)) ".html" = false →
     hostname (url request) ∈ hf →
     entry (CDN_CACHE v) (href (url request)) (caches w) = None →
     network env (FetchRequest request) = Fulfilled d →
     status d = 200 →
     put_refused env (CDN_CACHE v) (href (url request)) d = false →
     pending w = [] →
     entry (CDN_CACHE v) (href (url request))
       (caches (dispatch_fetch v env request w).2) = Some d).
Proof.
  cbv zeta.
  assert (∀ u : URL, hostname u ∈ ["huggingface.co"; "cdn-lfs.huggingface.co"] →
            isCacheable u = true) as Hallow.
  { intros u Hu. apply isCacheable_spec.
    repeat (apply elem_of_cons in Hu as [->|Hu]).
    - do 4 right. by left.
    - do 5 right. by left.
    - by apply elem_of_nil in Hu. }
  split; [exact Hallow |]. split; [exact prefetch_not_huggingface |]. split.
  - intros key Hkey. rewrite entry_install.
    rewrite decide_False.
    2:{ intros [Heq _]. by destruct (cache_names_distinct v v) as [Hd _]. }
    rewrite decide_False; [done |].
    intros [_ Hin]. by apply (prefetch_not_huggingface key).
  - intros request d Hm Hp Hh Hmiss Hnet Hs Hacc Hq.
    rewrite (dispatch_cache_first_200 v env request w d) by auto.
    rewrite Hacc, entry_put, decide_True; [done |].
    split; [done |]. split; [done |]. apply cs_find_open_eq.
Qed.

(** ** The theorems at concrete inputs *)

Lemma onfetch_classification_witness :
  onfetch CACHE_VERSION Sample.offline Sample.html_request Sample.empty_world =
    respondWith (network_first CACHE_VERSION Sample.offline Sample.html_request)
      Sample.empty_world ∧
  onfetch CACHE_VERSION Sample.offline Sample.cdn_request Sample.empty_world =
    respondWith (cache_first CACHE_VERSION Sample.offline Sample.cdn_request)
      Sample.empty_world ∧
  onfetch CACHE_VERSION Sample.offline Sample.post_request Sample.empty_world =
    (NotIntercepted, Sample.empty_world).
Proof.
  split; [| split].
  - destruct (onfetch_classification CACHE_VERSION Sample.offline Sample.html_request
                Sample.empty_world) as (H & _ & _).
    apply H. split; [reflexivity |]. by exists "/artemis".
  - destruct (onfetch_classification CACHE_VERSION Sample.offline Sample.cdn_request
                Sample.empty_world) as (_ & H & _).
    apply H. split; [reflexivity |]. split.
    + apply endsWith_false. reflexivity.
    + right. left.
  - destruct (onfetch_classification CACHE_VERSION Sample.offline Sample.post_request
                Sample.empty_world) as (_ & _ & H).
    apply H. left. discriminate.
Defined.

Lemma cache_first_hit_witness :
  entry (CDN_CACHE CACHE_VERSION) (href (url Sample.cdn_request))
    (caches Sample.cached_world) = Some Sample.script ∧
  (onfetch CACHE_VERSION Sample.offline Sample.cdn_request Sample.cached_world).1 =
    RespondWith (Fulfilled (Some (mkResponse 0 Sample.script))).
Proof.
  assert (entry (CDN_CACHE CACHE_VERSION) (href (url Sample.cdn_request))
            (caches Sample.cached_world) = Some Sample.script) as H
    by (vm_compute; reflexivity).
  split; [exact H |].
  destruct (cache_first_hit CACHE_VERSION Sample.offline Sample.cdn_request
              Sample.cached_world Sample.script eq_refl eq_refl eq_refl H)
    as (Hi & _).
  exact Hi.
Defined.

Lemma cache_first_network_failure_witness :
  network Sample.offline (FetchRequest Sample.cdn_request) =
    Rejected "TypeError: Failed to fetch" ∧
  (onfetch CACHE_VERSION Sample.offline Sample.cdn_request Sample.empty_world).1 =
    RespondWith (Rejected "TypeError: Failed to fetch").
Proof.
  split; [reflexivity |].
  destruct (cache_first_network_failure CACHE_VERSION Sample.offline Sample.cdn_request
              Sample.empty_world "TypeError: Failed to fetch"
              eq_refl eq_refl eq_refl eq_refl eq_refl) as (Hi & _).
  exact Hi.
Defined.

Lemma cache_first_store_gating_witness :
  status Sample.script = 200 ∧
  (dispatch_fetch CACHE_VERSION (Sample.answering Sample.script) Sample.cdn_request
     Sample.empty_world).1 = Served (mkResponse 0 Sample.script) ∧
  entry (CDN_CACHE CACHE_VERSION) (href (url Sample.cdn_request))
    (caches (dispatch_fetch CACHE_VERSION (Sample.answering Sample.script)
               Sample.cdn_request Sample.empty_world).2) = Some Sample.script.
Proof.
  split; [reflexivity |].
  destruct (cache_first_store_gating CACHE_VERSION (Sample.answering Sample.script)
              Sample.cdn_request Sample.empty_world Sample.script
              eq_refl eq_refl eq_refl eq_refl eq_refl eq_refl)
    as (_ & Hserved & _ & H200).
  split; [exact Hserved |].
  destruct (H200 eq_refl) as [_ Hentry]. exact Hentry.
Defined.

Lemma network_first_offline_witness :
  network Sample.offline (FetchRequest Sample.html_request) =
    Rejected "TypeError: Failed to fetch" ∧
  (onfetch CACHE_VERSION Sample.offline Sample.html_request Sample.visited_world).1 =
    RespondWith (Fulfilled (Some (mkResponse 0 Sample.page))) ∧
  (onfetch CACHE_VERSION Sample.offline Sample.html_request Sample.empty_world).1 =
    RespondWith (Fulfilled None).
Proof.
  split; [reflexivity |]. split.
  - destruct (network_first_offline CACHE_VERSION Sample.offline Sample.html_request
                Sample.visited_world "TypeError: Failed to fetch"
                eq_refl eq_refl eq_refl) as (_ & _ & _ & Hi & _).
    destruct Hi as [Hi _]. exact Hi.
  - destruct (network_first_offline CACHE_VERSION Sample.offline Sample.html_request
                Sample.empty_world "TypeError: Failed to fetch"
                eq_refl eq_refl eq_refl) as (_ & _ & _ & Hi & _).
    destruct Hi as [Hi _]. exact Hi.
Defined.

Lemma clone_before_consumption_witness :
  network (Sample.answering Sample.page) (FetchRequest Sample.html_request) =
    Fulfilled Sample.page ∧
  (deliver
     (onfetch CACHE_VERSION (Sample.answering Sample.page) Sample.html_request
        Sample.empty_world).1
     (drain (Sample.answering Sample.page)
        (onfetch CACHE_VERSION (Sample.answering Sample.page) Sample.html_request
           Sample.empty_world).2)).1 = Served (mkResponse 0 Sample.page) ∧
  entry (STATIC_CACHE CACHE_VERSION) (href (url Sample.html_request))
    (caches (drain (Sample.answering Sample.page)
               (onfetch CACHE_VERSION (Sample.answering Sample.page) Sample.html_request
                  Sample.empty_world).2)) = Some Sample.page.
Proof.
  split; [reflexivity |].
  destruct (clone_before_consumption CACHE_VERSION (Sample.answering Sample.page)
              Sample.html_request Sample.empty_world Sample.page
              eq_refl eq_refl eq_refl (or_introl eq_refl))
    as (_ & _ & _ & _ & _ & _ & Hlate).
  exact Hlate.
Defined.

Lemma network_first_stores_any_status_witness :
  status Sample.error_page = 500 ∧
  entry (STATIC_CACHE CACHE_VERSION) (href (url Sample.html_request))
    (caches Sample.visited_world) = Some Sample.page ∧
  entry (STATIC_CACHE CACHE_VERSION) (href (url Sample.html_request))
    (caches (dispatch_fetch CACHE_VERSION (Sample.answering Sample.error_page)
               Sample.html_request Sample.visited_world).2)
  = Some Sample.error_page ∧
  (dispatch_fetch CACHE_VERSION Sample.offline Sample.html_request
     (dispatch_fetch CACHE_VERSION (Sample.answering Sample.error_page)
        Sample.html_request Sample.visited_world).2).1
  = Served (mkResponse 2 Sample.error_page).
Proof.
  split; [reflexivity |]. split; [vm_compute; reflexivity |].
  destruct (network_first_stores_any_status CACHE_VERSION
              (Sample.answering Sample.error_page) Sample.html_request
              Sample.visited_world Sample.error_page
              eq_refl eq_refl eq_refl eq_refl)
    as (_ & _ & _ & Hentry & Hlater).
  split; [exact Hentry |].
  apply (Hlater eq_refl) with (e := "TypeError: Failed to fetch").
  - apply (bool_decide_unpack _). vm_compute. exact I.
  - intros name Hname. unfold entry. simpl.
    destruct (decide ("artemis-static-v1" = name)) as [<-|_]; [done |].
    by destruct (decide ("artemis-cdn-v1" = name)).
  - reflexivity.
Defined.

Lemma activate_cleans_witness :
  cs_find "artemis-static-v1" (caches Sample.two_versions_world) = Some ∅ ∧
  cs_find "artemis-static-v1"
    (caches (onactivate "v2" Sample.two_versions_world).2) = None ∧
  cs_find "artemis-cdn-v1"
    (caches (onactivate "v2" Sample.two_versions_world).2) = None ∧
  cs_find "artemis-static-v2"
    (caches (onactivate "v2" Sample.two_versions_world).2) = Some ∅ ∧
  cs_find "artemis-cdn-v2"
    (caches (onactivate "v2" Sample.two_versions_world).2) = Some ∅.
Proof.
  destruct (activate_cleans "v2" Sample.two_versions_world)
    as (_ & _ & Hkept & Hgone).
  assert ("v1" ≠ "v2") as Hv by discriminate.
  destruct (Hgone "v1" Hv) as [Hs Hc].
  split; [reflexivity |]. split; [exact Hs |]. split; [exact Hc |]. split.
  - rewrite (Hkept "artemis-static-v2"); [reflexivity | by left].
  - rewrite (Hkept "artemis-cdn-v2"); [reflexivity | right; by left].
Defined.

Lemma install_best_effort_witness :
  network Sample.one_page_down (FetchUrl "./artemis_ja.html") =
    Rejected "TypeError: Failed to fetch" ∧
  entry (STATIC_CACHE CACHE_VERSION) "./artemis_ja.html"
    (caches (oninstall CACHE_VERSION Sample.one_page_down Sample.empty_world).2) = None ∧
  entry (STATIC_CACHE CACHE_VERSION) "./artemis.html"
    (caches (oninstall CACHE_VERSION Sample.one_page_down Sample.empty_world).2)
  = Some Sample.page ∧
  entry (CDN_CACHE CACHE_VERSION) "https://d3js.org/d3.v7.min.js"
    (caches (oninstall CACHE_VERSION Sample.one_page_down Sample.empty_world).2)
  = Some Sample.page.
Proof.
  destruct (install_best_effort CACHE_VERSION Sample.one_page_down Sample.empty_world)
    as (_ & Hstatic & Hcdn & _).
  split; [reflexivity |]. split; [| split].
  - rewrite (Hstatic "./artemis_ja.html"); [reflexivity | right; by left].
  - rewrite (Hstatic "./artemis.html"); [reflexivity | by left].
  - rewrite (Hcdn "https://d3js.org/d3.v7.min.js"); [reflexivity | right; by left].
Defined.

Lemma huggingface_lazy_only_witness :
  hostname (url Sample.model_request) = "huggingface.co" ∧
  entry (CDN_CACHE CACHE_VERSION) (href (url Sample.model_request))
    (caches (oninstall CACHE_VERSION (Sample.answering Sample.script)
               Sample.empty_world).2) = None ∧
  entry (CDN_CACHE CACHE_VERSION) (href (url Sample.model_request))
    (caches (dispatch_fetch CACHE_VERSION (Sample.answering Sample.script)
               Sample.model_request Sample.empty_world).2)
  = Some Sample.script.
Proof.
  destruct (huggingface_lazy_only CACHE_VERSION (Sample.answering Sample.script)
              Sample.empty_world) as (_ & _ & Hinstall & Hlazy).
  split; [reflexivity |]. split.
  - rewrite Hinstall; [reflexivity |]. by left.
  - apply Hlazy; try reflexivity. by left.
Defined.

(** * Further properties of the listeners *)

(** ** One intercepted request, summarised *)

Lemma fetches_app (l l' : list Event) : fetches (l ++ l') = fetches l ++ fetches l'.
Proof. apply omap_app. Qed.

Ltac fresh_heap :=
  repeat first
    [ rewrite length_fresh
    | rewrite lookup_fresh
    | rewrite lookup_fresh_old
    | rewrite lookup_fresh2
    | rewrite list_lookup_insert_ne by lia
    | progress simpl ].

Ltac log_fetches :=
  rewrite ?fetches_app; simpl; rewrite ?app_nil_r, <- ?app_assoc; simpl.

(** From a world with no store in flight, one intercepted request answers
    as [fetch_answer], leaves the storage as [fetch_effect], leaves no store
    in flight and makes the fetch calls [fetch_calls]. *)
Lemma dispatch_fetch_summary (v : string) (env : Env) (request : Request)
    (w : World) :
  pending w = [] →
  answer_of (dispatch_fetch v env request w).1 = fetch_answer v env request (caches w) ∧
  caches (dispatch_fetch v env request w).2 = fetch_effect v env request (caches w) ∧
  pending (dispatch_fetch v env request w).2 = [] ∧
  fetches (log (dispatch_fetch v env request w).2) =
    fetches (log w) ++ fetch_calls v request (caches w).
Proof.
  intros Hq.
  unfold dispatch_fetch, onfetch, fetch_answer, fetch_effect, fetch_calls.
  destruct (bool_decide (method request = "GET")); simpl.
  2:{ unfold drain. rewrite Hq. simpl. rewrite app_nil_r. by destruct w. }
  destruct (endsWith (pathname (url request)) ".html").
  - run. destruct (network env (FetchRequest request)) as [d|e]; simpl.
    + fresh_heap. unfold deliver, bodyUsed, drain. rewrite Hq. fresh_heap.
      run. unfold bodyUsed. fresh_heap.
      destruct (put_refused env (STATIC_CACHE v) (href (url request)) d);
        simpl; log_fetches; done.
    + destruct (cs_match (href (url request)) (caches w)) as [hit|]; simpl.
      * unfold deliver, bodyUsed, drain. rewrite Hq. fresh_heap.
        log_fetches. done.
      * unfold drain. rewrite Hq. simpl. log_fetches. done.
  - destruct (isCacheable (url request)).
    2:{ unfold drain. simpl. rewrite Hq. simpl. rewrite app_nil_r. by destruct w. }
    run. rewrite entry_open.
    destruct (entry (CDN_CACHE v) (href (url request)) (caches w)) as [hit|]; simpl.
    + unfold deliver, bodyUsed, drain. rewrite Hq. fresh_heap.
      log_fetches. done.
    + destruct (network env (FetchRequest request)) as [d|e]; simpl.
      * destruct (bool_decide (status d = 200)); simpl.
        -- fresh_heap. unfold deliver, bodyUsed, drain. rewrite Hq. fresh_heap.
           run. unfold bodyUsed. fresh_heap.
           destruct (put_refused env (CDN_CACHE v) (href (url request)) d);
             simpl; log_fetches; done.
        -- unfold deliver, bodyUsed, drain. rewrite Hq. fresh_heap.
           log_fetches. done.
      * unfold drain. rewrite Hq. simpl. log_fetches. done.
Qed.

Section FetchEffect.

Variable v : string.
Variable env : Env.
Variable request : Request.

Implicit Types (cs : CacheStorage) (name key : string).

Lemma static_is_not_cdn : STATIC_CACHE v ≠ CDN_CACHE v.
Proof. by destruct (cache_names_distinct v v). Qed.

(** A partition other than the two current ones is left as it is. *)
Lemma fetch_effect_other name cs :
  name ∉ [STATIC_CACHE v; CDN_CACHE v] →
  cs_find name (fetch_effect v env request cs) = cs_find name cs.
Proof.
  intros Hname.
  assert (STATIC_CACHE v ≠ name ∧ CDN_CACHE v ≠ name) as [Hs Hc].
  { split; intros <-; apply Hname; [by left | right; by left]. }
  assert (∀ n, n ≠ name → cs_find name (cs_open n cs) = cs_find name cs) as Hopen.
  { intros n Hn. rewrite cs_find_open. destruct (cs_find name cs); [done |].
    by rewrite decide_False. }
  unfold fetch_effect.
  repeat first
    [ done
    | rewrite cs_find_put, decide_False by done
    | rewrite Hopen by done
    | match goal with |- context [if ?b then _ else _] => destruct b end
    | match goal with |- context [match ?x with _ => _ end] => destruct x end ].
Qed.

(** Every entry of [fetch_effect], in terms of the entries before. *)
Lemma entry_fetch_effect name key cs :
  entry name key (fetch_effect v env request cs) = entry name key cs ∨
  (∃ d, entry name key (fetch_effect v env request cs) = Some d ∧
        network env (FetchRequest request) = Fulfilled d ∧
        key = href (url request) ∧
        method request = "GET" ∧
        ((name = STATIC_CACHE v ∧
          endsWith (pathname (url request)) ".html" = true) ∨
         (name = CDN_CACHE v ∧
          endsWith (pathname (url request)) ".html" = false ∧
          isCacheable (url request) = true ∧
          entry (CDN_CACHE v) key cs = None ∧
          status d = 200))).
Proof.
  unfold fetch_effect.
  destruct (decide (method request = "GET")) as [Hm|Hm].
  2:{ rewrite (bool_decide_eq_false_2 _ Hm). by left. }
  rewrite (bool_decide_eq_true_2 _ Hm). simpl.
  destruct (endsWith (pathname (url request)) ".html") eqn:Hp.
  - destruct (network env (FetchRequest request)) as [d|e] eqn:Hnet; [| by left].
    destruct (put_refused env (STATIC_CACHE v) (href (url request)) d).
    + left. apply entry_open.
    + rewrite entry_put, entry_open. case_decide as Hk; [| by left].
      destruct Hk as (<- & <- & _). right. exists d. by eauto 10.
  - destruct (isCacheable (url request)) eqn:Hc; [| by left].
    destruct (entry (CDN_CACHE v) (href (url request)) cs) as [hit|] eqn:Hhit.
    { left. apply entry_open. }
    destruct (network env (FetchRequest request)) as [d|e] eqn:Hnet.
    2:{ left. apply entry_open. }
    destruct (decide (status d = 200)) as [Hs|Hs].
    2:{ rewrite (bool_decide_eq_false_2 _ Hs). simpl. left. apply entry_open. }
    rewrite (bool_decide_eq_true_2 _ Hs). simpl.
    destruct (put_refused env (CDN_CACHE v) (href (url request)) d); simpl.
    + left. apply entry_open.
    + rewrite entry_put, entry_open. case_decide as Hk; [| by left].
      destruct Hk as (<- & <- & _). right. exists d.
      split; [done |]. split; [done |]. split; [done |]. split; [done |].
      right. done.
Qed.

End FetchEffect.

Lemma handle_all_summary (v : string) (traffic : list (Env * Request)) :
  ∀ w, pending w = [] →
    pending (handle_all v traffic w) = [] ∧
    caches (handle_all v traffic w) =
      fold_left (fun cs er => fetch_effect v er.1 er.2 cs) traffic (caches w).
Proof.
  unfold handle_all.
  induction traffic as [|[env request] traffic IH]; intros w Hq; [done |].
  cbn [fold_left fst snd].
  destruct (dispatch_fetch_summary v env request w Hq) as (_ & Hcs & Hq' & _).
  destruct (IH _ Hq') as [Hp Hfold]. split; [done |]. by rewrite Hfold, Hcs.
Qed.

(** ** Streams of intercepted requests *)



(** X2. Fetch handling never removes an entry: an entry present in any
    partition before a stream of intercepted requests is present after it
    (possibly with a newer snapshot, in the static partition). *)
Theorem fetch_keeps_entries (v : string) (traffic : list (Env * Request))
    (w : World) (name key : string) :
  pending w = [] →
  is_Some (entry name key (caches w)) →
  is_Some (entry name key (caches (handle_all v traffic w))).
Proof.
  intros Hq Hin. destruct (handle_all_summary v traffic w Hq) as [_ ->].
  clear Hq. revert Hin. generalize (caches w) as cs.
  induction traffic as [|[env request] traffic IH]; intros cs Hin; [done |].
  cbn [fold_left fst snd]. apply IH.
  destruct (entry_fetch_effect v env request name key cs) as [-> | (d & -> & _)];
    [done | by eexists].
Qed.

(** X3. Fetch handling touches only the two partitions of the running
    version: any partition under another name (another version's, or one
    the page made) is, after any stream of intercepted requests, exactly
    what it was, and is not created if it did not exist. *)
Theorem fetch_leaves_other_partitions (v : string)
    (traffic : list (Env * Request)) (w : World) (name : string) :
  pending w = [] →
  name ∉ [STATIC_CACHE v; CDN_CACHE v] →
  cs_find name (caches (handle_all v traffic w)) = cs_find name (caches w).
Proof.
  intros Hq Hname. destruct (handle_all_summary v traffic w Hq) as [_ ->].
  clear Hq. generalize (caches w) as cs.
  induction traffic as [|[env request] traffic IH]; intros cs; [done |].
  cbn [fold_left fst snd]. rewrite IH. by apply fetch_effect_other.
Qed.

(** X4. Each strategy writes only its own partition.  A request whose path
    ends in ".html", even one to an allow-listed host, leaves every entry of
    the third-party partition unchanged; a request whose path does not end
    in ".html" leaves every entry of the static partition unchanged. *)
Theorem strategies_keep_to_their_partition (v : string) (env : Env)
    (request : Request) (w : World) (key : string) :
  pending w = [] →
  let w' := (dispatch_fetch v env request w).2 in
  (endsWith (pathname (url request)) ".html" = true →
   entry (CDN_CACHE v) key (caches w') = entry (CDN_CACHE v) key (caches w)) ∧
  (endsWith (pathname (url request)) ".html" = false →
   entry (STATIC_CACHE v) key (caches w') = entry (STATIC_CACHE v) key (caches w)).
Proof.
  intros Hq. cbv zeta.
  destruct (dispatch_fetch_summary v env request w Hq) as (_ & -> & _).
  split; intros Hp.
  - destruct (entry_fetch_effect v env request (CDN_CACHE v) key (caches w))
      as [-> | (d & _ & _ & _ & _ & [[Hn _] | (_ & Hp' & _)])]; [done | |].
    + by destruct (static_is_not_cdn v).
    + congruence.
  - destruct (entry_fetch_effect v env request (STATIC_CACHE v) key (caches w))
      as [-> | (d & _ & _ & _ & _ & [[_ Hp'] | (Hn & _)])]; [done | |].
    + congruence.
    + by destruct (static_is_not_cdn v).
Qed.

(** ** Round trips through the third-party partition *)


(** X6. An answer whose status is not 200 is not remembered.  After a
    cache-first miss answered with a status other than 200, the next request
    for the same URL goes to the network again: it makes one fetch call and
    is answered by what the network says then, a network error if the fetch
    rejects. *)
Theorem non_200_is_fetched_again (v : string) (env env' : Env)
    (request : Request) (w : World) (d : Snapshot) :
  pending w = [] →
  method request = "GET" →
  endsWith (pathname (url request)) ".html" = false →
  isCacheable (url request) = true →
  entry (CDN_CACHE v) (href (url request)) (caches w) = None →
  network env (FetchRequest request) = Fulfilled d →
  status d ≠ 200 →
  let w1 := (dispatch_fetch v env request w).2 in
  answer_of (dispatch_fetch v env request w).1 = Some (Some d) ∧
  fetches (log (dispatch_fetch v env' request w1).2) =
    fetches (log w1) ++ [FetchRequest request] ∧
  answer_of (dispatch_fetch v env' request w1).1 =
    Some (match network env' (FetchRequest request) with
          | Fulfilled d' => Some d'
          | Rejected _ => None
          end).
Proof.
  intros Hq Hm Hp Hc Hmiss Hnet Hs. cbv zeta.
  destruct (dispatch_fetch_summary v env request w Hq) as (Ha & Hcs & Hq1 & _).
  set (w1 := (dispatch_fetch v env request w).2) in *.
  assert (entry (CDN_CACHE v) (href (url request)) (caches w1) = None) as Hmiss'.
  { rewrite Hcs. unfold fetch_effect.
    rewrite (bool_decide_eq_true_2 _ Hm), Hp, Hc, Hmiss, Hnet.
    rewrite (bool_decide_eq_false_2 _ Hs). simpl. by rewrite entry_open. }
  destruct (dispatch_fetch_summary v env' request w1 Hq1) as (Ha' & _ & _ & Hl).
  rewrite Ha, Ha', Hl. unfold fetch_answer, fetch_calls.
  rewrite (bool_decide_eq_true_2 _ Hm), Hp, Hc, Hmiss, Hmiss', Hnet. done.
Qed.

(** ** What one request costs and when it fails *)

(** X7. One intercepted request makes at most one fetch call, and it is the
    fetch of the request itself: exactly one when the request is a GET whose
    path ends in ".html", or a GET to an allow-listed host that misses the
    third-party partition; none in every other case (not GET, host not
    allow-listed, or a hit).  The detached stores never fetch. *)
Theorem one_fetch_per_request (v : string) (env : Env) (request : Request)
    (w : World) :
  pending w = [] →
  let w' := (dispatch_fetch v env request w).2 in
  let goes_to_network :=
    method request = "GET" ∧
    (endsWith (pathname (url request)) ".html" = true ∨
     (isCacheable (url request) = true ∧
      entry (CDN_CACHE v) (href (url request)) (caches w) = None)) in
  (goes_to_network →
   fetches (log w') = fetches (log w) ++ [FetchRequest request]) ∧
  (¬ goes_to_network → fetches (log w') = fetches (log w)).
Proof.
  intros Hq. cbv zeta.
  destruct (dispatch_fetch_summary v env request w Hq) as (_ & _ & _ & ->).
  unfold fetch_calls.
  destruct (decide (method request = "GET")) as [Hm|Hm].
  2:{ rewrite (bool_decide_eq_false_2 _ Hm). simpl. rewrite app_nil_r.
      split; [intros [? _]; done | done]. }
  rewrite (bool_decide_eq_true_2 _ Hm). simpl.
  destruct (endsWith (pathname (url request)) ".html").
  { split; [done |]. intros Hn. exfalso. apply Hn. split; [done | by left]. }
  destruct (isCacheable (url request)).
  2:{ rewrite app_nil_r. split; [| done].
      intros [_ [? | [? _]]]; discriminate. }
  destruct (entry (CDN_CACHE v) (href (url request)) (caches w)).
  - rewrite app_nil_r. split; [| done]. intros [_ [? | [_ ?]]]; discriminate.
  - split; [done |]. intros Hn. exfalso. apply Hn. split; [done | by right].
Qed.

(** X8. When the page sees a network error.  From a world with no store in
    flight, an intercepted request ends in a network error exactly when it
    is a GET whose fetch rejects and for which nothing is stored: no
    partition holds it (path ending in ".html"), or the third-party
    partition does not hold it (allow-listed host).  In particular a fetch
    that resolves, with any status, is never turned into an error. *)
Theorem network_error_iff (v : string) (env : Env) (request : Request)
    (w : World) :
  pending w = [] →
  (dispatch_fetch v env request w).1 = NetworkError ↔
  method request = "GET" ∧
  (∃ e, network env (FetchRequest request) = Rejected e) ∧
  ((endsWith (pathname (url request)) ".html" = true ∧
    cs_match (href (url request)) (caches w) = None) ∨
   (endsWith (pathname (url request)) ".html" = false ∧
    isCacheable (url request) = true ∧
    entry (CDN_CACHE v) (href (url request)) (caches w) = None)).
Proof.
  intros Hq.
  destruct (dispatch_fetch_summary v env request w Hq) as (Ha & _).
  assert ((dispatch_fetch v env request w).1 = NetworkError ↔
          fetch_answer v env request (caches w) = Some None) as ->.
  { rewrite <- Ha. destruct (dispatch_fetch v env request w).1; simpl;
      split; intros H; done. }
  unfold fetch_answer.
  destruct (decide (method request = "GET")) as [Hm|Hm].
  2:{ rewrite (bool_decide_eq_false_2 _ Hm). simpl. split; [done |].
      intros [? _]. done. }
  rewrite (bool_decide_eq_true_2 _ Hm). simpl.
  destruct (endsWith (pathname (url request)) ".html").
  - destruct (network env (FetchRequest request)) as [d|e].
    + split; [done |]. intros (_ & [e He] & _). done.
    + destruct (cs_match (href (url request)) (caches w)).
      * split; [done |]. intros (_ & _ & [[_ ?] | [? _]]); done.
      * split; [| done]. intros _. split; [done |].
        split; [by eexists | by left].
  - destruct (isCacheable (url request)).
    2:{ split; [done |]. intros (_ & _ & [[? _] | (_ & ? & _)]); done. }
    destruct (entry (CDN_CACHE v) (href (url request)) (caches w)).
    { split; [done |]. intros (_ & _ & [[? _] | (_ & _ & ?)]); done. }
    destruct (network env (FetchRequest request)) as [d|e].
    + split; [done |]. intros (_ & [e He] & _). done.
    + split; [| done]. intros _. split; [done |].
      split; [by eexists | by right].
Qed.

(** X9. Handling a request while its fetch rejects changes no entry of any
    partition: being offline never alters what is stored. *)
Theorem offline_changes_no_entry (v : string) (env : Env) (request : Request)
    (w : World) (e : string) (name key : string) :
  pending w = [] →
  network env (FetchRequest request) = Rejected e →
  entry name key (caches (dispatch_fetch v env request w).2) =
  entry name key (caches w).
Proof.
  intros Hq Hnet.
  destruct (dispatch_fetch_summary v env request w Hq) as (_ & -> & _).
  destruct (entry_fetch_effect v env request name key (caches w))
    as [-> | (d & _ & Hd & _)]; [done | congruence].
Qed.

(** ** install, further *)

Lemma settle_each_fold {A M : Type} (m : World → M) (g : M → string → M)
    (f : string → Promise A) (urls : list string) :
  (∀ url w, m (f url w).2 = g (m w) url) →
  ∀ w, m (settle_each (map f urls) w).2 = fold_left g urls (m w).
Proof.
  intros Hf. induction urls as [|url urls IH]; intros w; simpl; [done |].
  specialize (Hf url w). destruct (f url w) as [r w1]. simpl in Hf.
  specialize (IH w1). destruct (settle_each (map f urls) w1) as [rs w2].
  simpl in *. by rewrite IH, Hf.
Qed.

Lemma fold_left_snoc_map {A B : Type} (h : A → B) (l : list A) (acc : list B) :
  fold_left (fun acc x => acc ++ [h x]) l acc = acc ++ map h l.
Proof.
  revert acc. induction l as [|x l IH]; intros acc; simpl.
  - by rewrite app_nil_r.
  - by rewrite IH, <- app_assoc.
Qed.

Lemma fold_left_keep {A B : Type} (l : list A) (acc : B) :
  fold_left (fun acc _ => acc) l acc = acc.
Proof. induction l; simpl; done. Qed.

Section PrecacheTrace.

Variable env : Env.
Variable cache : string.

Lemma precache_static_trace url w :
  pending (precache_static env cache url w).2 = pending w ∧
  fetches (log (precache_static env cache url w).2) =
    fetches (log w) ++ [FetchUrl url].
Proof.
  run. destruct (network env (FetchUrl url)) as [d|e]; simpl.
  2:{ by rewrite fetches_app. }
  unfold ok. simpl. destruct (ok_status (status d)); simpl.
  2:{ by rewrite fetches_app. }
  rewrite lookup_fresh. simpl.
  destruct (put_refused env cache url d); simpl;
    rewrite !fetches_app; simpl; by rewrite app_nil_r.
Qed.

Lemma precache_cdn_trace url w :
  pending (precache_cdn env cache url w).2 = pending w ∧
  fetches (log (precache_cdn env cache url w).2) =
    fetches (log w) ++ [FetchUrlCors url].
Proof.
  run. destruct (network env (FetchUrlCors url)) as [d|e]; simpl.
  2:{ by rewrite fetches_app. }
  unfold ok. simpl. destruct (ok_status (status d)); simpl.
  2:{ by rewrite fetches_app. }
  rewrite lookup_fresh. simpl.
  destruct (put_refused env cache url d); simpl;
    rewrite !fetches_app; simpl; by rewrite app_nil_r.
Qed.

End PrecacheTrace.

Lemma oninstall_trace (v : string) (env : Env) (w : World) :
  pending (oninstall v env w).2 = pending w ∧
  fetches (log (oninstall v env w).2) =
    fetches (log w) ++ map FetchUrl STATIC_ASSETS ++ map FetchUrlCors CDN_PREFETCH.
Proof.
  unfold oninstall, install_work.
  generalize STATIC_ASSETS as pages, CDN_PREFETCH as scripts.
  intros pages scripts.
  unfold all, then_, caches_open, allSettled.
  set (w1 := set_caches (cs_open (STATIC_CACHE v) (caches w))
               (emit (EvCachesOpen (STATIC_CACHE v)) w)).
  pose proof (settle_each_fold pending (fun p _ => p)
                (precache_static env (STATIC_CACHE v)) pages
                (fun url w => proj1 (precache_static_trace env _ url w)) w1) as Hp1.
  pose proof (settle_each_fold (fun w => fetches (log w))
                (fun l url => l ++ [FetchUrl url])
                (precache_static env (STATIC_CACHE v)) pages
                (fun url w => proj2 (precache_static_trace env _ url w)) w1) as Hl1.
  destruct (settle_each (map (precache_static env (STATIC_CACHE v)) pages) w1)
    as [rs1 w2].
  set (w3 := set_caches (cs_open (CDN_CACHE v) (caches w2))
               (emit (EvCachesOpen (CDN_CACHE v)) w2)).
  pose proof (settle_each_fold pending (fun p _ => p)
                (precache_cdn env (CDN_CACHE v)) scripts
                (fun url w => proj1 (precache_cdn_trace env _ url w)) w3) as Hp2.
  pose proof (settle_each_fold (fun w => fetches (log w))
                (fun l url => l ++ [FetchUrlCors url])
                (precache_cdn env (CDN_CACHE v)) scripts
                (fun url w => proj2 (precache_cdn_trace env _ url w)) w3) as Hl2.
  destruct (settle_each (map (precache_cdn env (CDN_CACHE v)) scripts) w3)
    as [rs2 w4].
  rewrite fold_left_keep in Hp1, Hp2. rewrite fold_left_snoc_map in Hl1, Hl2.
  cbn [snd fst] in *. subst w1 w3. simpl in *.
  rewrite !fetches_app in *. simpl in *. rewrite !app_nil_r in *.
  split; [congruence |]. rewrite Hl2, Hl1. by rewrite <- app_assoc.
Qed.

Lemma oninstall_caches (v : string) (env : Env) (w : World) :
  caches (oninstall v env w).2 =
    fold_left (precached env (CDN_CACHE v) FetchUrlCors) CDN_PREFETCH
      (cs_open (CDN_CACHE v)
         (fold_left (precached env (STATIC_CACHE v) FetchUrl) STATIC_ASSETS
            (cs_open (STATIC_CACHE v) (caches w)))).
Proof.
  unfold oninstall. destruct (install_work_run v env w) as [_ Hcs].
  destruct (install_work v env w) as [r w1]. exact Hcs.
Qed.

Lemma is_Some_cs_find_open (name name' : string) (cs : CacheStorage) :
  is_Some (cs_find name' (cs_open name cs)) ↔
  is_Some (cs_find name' cs) ∨ name = name'.
Proof.
  rewrite cs_find_open. destruct (cs_find name' cs) as [c|].
  - split; [intros _; left; by eexists | intros _; by eexists].
  - destruct (decide (name = name')) as [->|Hne].
    + split; [by right | intros _; by eexists].
    + split; [by intros [? ?] | intros [[? ?] | ?]; done].
Qed.

(** X10. The install step makes exactly one fetch call per listed URL, in
    list order, the pages without a mode and the third-party scripts with
    mode cors, whatever the fetches answer: no URL is retried and none is
    skipped after an earlier failure.  It leaves no store detached. *)
Theorem install_fetches_each_url_once (v : string) (env : Env) (w : World) :
  fetches (log (oninstall v env w).2) =
    fetches (log w) ++
    map FetchUrl STATIC_ASSETS ++ map FetchUrlCors CDN_PREFETCH ∧
  pending (oninstall v env w).2 = pending w.
Proof. destruct (oninstall_trace v env w) as [Hp Hl]. by split. Qed.

(** X11. The install step creates the two partitions of its version when
    they are missing, even if every fetch fails, and creates or removes no
    other partition. *)
Theorem install_creates_partitions (v : string) (env : Env) (w : World)
    (name : string) :
  is_Some (cs_find name (caches (oninstall v env w).2)) ↔
  is_Some (cs_find name (caches w)) ∨ name ∈ [STATIC_CACHE v; CDN_CACHE v].
Proof.
  rewrite oninstall_caches.
  rewrite cs_find_precached, is_Some_cs_find_open.
  rewrite cs_find_precached, is_Some_cs_find_open.
  rewrite !elem_of_cons, elem_of_nil. split.
  - intros [[H | <-] | <-]; auto.
  - intros [H | [-> | [-> | []]]]; auto.
Qed.

(** X12. The install step never removes an entry: whatever was stored in
    any partition before install is still stored after it (with the newly
    fetched snapshot if the URL is listed and its fetch and store went
    through).  A failed install cannot damage an earlier one. *)
Theorem install_keeps_entries (v : string) (env : Env) (w : World)
    (name key : string) :
  is_Some (entry name key (caches w)) →
  is_Some (entry name key (caches (oninstall v env w).2)).
Proof.
  intros Hin. rewrite entry_install.
  repeat case_decide; try done;
    match goal with
    | |- context [install_writes ?e ?a ?c ?k] =>
        destruct (install_writes e a c k); [by eexists | done]
    end.
Qed.

(** X13. Installing twice under the same network answers stores what
    installing once stores: every entry of every partition is the same
    after the second install as after the first. *)
Theorem install_twice (v : string) (env : Env) (w : World) (name key : string) :
  entry name key (caches (oninstall v env (oninstall v env w).2).2) =
  entry name key (caches (oninstall v env w).2).
Proof.
  rewrite (entry_install v env (oninstall v env w).2).
  rewrite (entry_install v env w).
  repeat case_decide; try done;
    match goal with
    | |- context [install_writes ?e ?a ?c ?k] =>
        by destruct (install_writes e a c k)
    end.
Qed.

(** X14. A prefetched script is served from the cache.  If, during install,
    the fetch of a URL of the third-party list resolved with an OK status
    and its store was accepted, then a later GET request for that URL (its
    hostname being the URL's, its path not ending in ".html") is answered
    with that snapshot and makes no fetch call, whatever the network would
    say then.  Every host of the prefetch list is on the allow-list. *)
Theorem prefetched_script_is_served (v : string) (env env' : Env) (w : World)
    (request : Request) (d : Snapshot) :
  pending w = [] →
  href (url request) ∈ CDN_PREFETCH →
  hostname (url request) = hostname_of (href (url request)) →
  method request = "GET" →
  endsWith (pathname (url request)) ".html" = false →
  network env (FetchUrlCors (href (url request))) = Fulfilled d →
  ok_status (status d) = true →
  put_refused env (CDN_CACHE v) (href (url request)) d = false →
  let w1 := (oninstall v env w).2 in
  answer_of (dispatch_fetch v env' request w1).1 = Some (Some d) ∧
  fetches (log (dispatch_fetch v env' request w1).2) = fetches (log w1).
Proof.
  intros Hq Hin Hhost Hm Hp Hnet Hok Hacc. cbv zeta.
  assert (isCacheable (url request) = true) as Hc.
  { apply isCacheable_spec. rewrite Hhost.
    assert (hostname_of (href (url request)) ∈ map hostname_of CDN_PREFETCH) as Hh.
    { apply list_elem_of_fmap. by eexists. }
    rewrite prefetch_hosts in Hh.
    repeat (apply elem_of_cons in Hh as [-> | Hh]);
      try (by apply elem_of_nil in Hh);
      rewrite !elem_of_cons; auto 10. }
  assert (entry (CDN_CACHE v) (href (url request)) (caches (oninstall v env w).2)
          = Some d) as Hd.
  { rewrite entry_install. rewrite decide_False.
    2:{ intros [Heq _]. by destruct (static_is_not_cdn v). }
    rewrite decide_True by done.
    unfold install_writes. by rewrite Hnet, Hok, Hacc. }
  assert (pending (oninstall v env w).2 = []) as Hq1.
  { destruct (oninstall_trace v env w) as [-> _]. done. }
  destruct (dispatch_fetch_summary v env' request _ Hq1) as (-> & _ & _ & ->).
  unfold fetch_answer, fetch_calls.
  rewrite (bool_decide_eq_true_2 _ Hm), Hp, Hc, Hd. simpl.
  by rewrite app_nil_r.
Qed.

(** ** activate, further *)

Lemma filter_iff_in {A : Type} (P Q : A → Prop)
    `{!∀ x, Decision (P x), !∀ x, Decision (Q x)} (l : list A) :
  (∀ x, x ∈ l → (P x ↔ Q x)) → filter P l = filter Q l.
Proof.
  induction l as [|x l IH]; intros Hpq; [done |].
  rewrite !filter_cons.
  assert (filter P l = filter Q l) as ->.
  { apply IH. intros y Hy. apply Hpq. by right. }
  assert (P x ↔ Q x) as Hx by (apply Hpq; by left).
  destruct (decide (P x)), (decide (Q x)); tauto.
Qed.

Lemma cs_delete_all (names : list string) :
  ∀ cs : CacheStorage,
    fold_left (fun cs n => cs_delete n cs) names cs =
    filter (λ p, p.1 ∉ names) cs.
Proof.
  induction names as [|n names IH]; intros cs.
  - simpl. symmetry. induction cs as [|p cs IHcs]; [done |].
    rewrite filter_cons, decide_True by apply not_elem_of_nil. by f_equal.
  - cbn [fold_left]. rewrite IH. unfold cs_delete. rewrite list_filter_filter.
    apply list_filter_iff. intros p. rewrite not_elem_of_cons. tauto.
Qed.

(** The storage after activate: the partitions under a current name, in the
    order and with the entries they had. *)
Lemma onactivate_caches (v : string) (w : World) :
  caches (onactivate v w).2 =
    filter (λ p, p.1 ∈ [STATIC_CACHE v; CDN_CACHE v]) (caches w).
Proof.
  unfold onactivate, activate_work, then_, caches_keys.
  set (stale := filter _ (cs_keys (caches w))).
  destruct (all_caches_delete stale (emit EvCachesKeys w)) as [_ Hcs].
  destruct (all (map caches_delete stale) (emit EvCachesKeys w)) as [r w2].
  simpl in *. rewrite Hcs, cs_delete_all.
  apply filter_iff_in. intros [n c] Hin. simpl. subst stale.
  rewrite list_elem_of_filter, negb_true_iff, bool_decide_eq_false.
  unfold ALL_CACHES.
  assert (n ∈ cs_keys (caches w)) as Hn.
  { unfold cs_keys. apply list_elem_of_fmap. by exists (n, c). }
  destruct (decide (n ∈ [STATIC_CACHE v; CDN_CACHE v])); tauto.
Qed.

Lemma cs_find_filter (names : list string) (name : string) (cs : CacheStorage) :
  cs_find name (filter (λ p, p.1 ∈ names) cs) =
    if decide (name ∈ names) then cs_find name cs else None.
Proof.
  induction cs as [|[n c] cs IH]; simpl.
  - by destruct (decide (name ∈ names)).
  - rewrite filter_cons. simpl.
    destruct (decide (n ∈ names)) as [Hn|Hn]; simpl; rewrite IH.
    + destruct (decide (n = name)) as [->|Hne];
        destruct (decide (name ∈ names)); first [done | tauto].
    + destruct (decide (n = name)) as [->|Hne];
        destruct (decide (name ∈ names)); first [done | tauto].
Qed.

(** X15. Activating twice is activating once: a second activate step finds
    nothing to delete and leaves the storage as the first one left it. *)
Theorem activate_twice (v : string) (w : World) :
  caches (onactivate v (onactivate v w).2).2 = caches (onactivate v w).2.
Proof.
  rewrite !onactivate_caches. by apply list_filter_filter_l.
Qed.

(** X16. Install, then activate, under one version tag: the partitions that
    exist afterwards are exactly the two of that version, whatever existed
    before and whatever the network did, and they hold exactly what install
    left in them. *)
Theorem install_then_activate (v : string) (env : Env) (w : World) :
  let w1 := (oninstall v env w).2 in
  let w2 := (onactivate v w1).2 in
  (∀ name, is_Some (cs_find name (caches w2)) ↔
           name ∈ [STATIC_CACHE v; CDN_CACHE v]) ∧
  (∀ name key, name ∈ [STATIC_CACHE v; CDN_CACHE v] →
     entry name key (caches w2) = entry name key (caches w1)).
Proof.
  cbv zeta. rewrite onactivate_caches.
  pose proof (fun name => cs_find_filter [STATIC_CACHE v; CDN_CACHE v] name
                           (caches (oninstall v env w).2)) as Hf.
  split.
  - intros name. rewrite Hf.
    case_decide as Hn; [| split; [by intros [? ?] | done]].
    split; [done |]. intros _.
    rewrite oninstall_caches, cs_find_precached, is_Some_cs_find_open.
    rewrite cs_find_precached, is_Some_cs_find_open.
    rewrite !elem_of_cons, elem_of_nil in Hn.
    destruct Hn as [-> | [-> | []]]; auto.
  - intros name key Hn. unfold entry. rewrite Hf. by rewrite decide_True.
Qed.

(** X17. With nothing stale there is nothing to delete: when every existing
    partition bears one of the two current names, activate leaves the
    storage exactly as it was. *)
Theorem activate_without_stale (v : string) (w : World) :
  (∀ name, name ∈ cs_keys (caches w) → name ∈ [STATIC_CACHE v; CDN_CACHE v]) →
  caches (onactivate v w).2 = caches w.
Proof.
  intros Hall. rewrite onactivate_caches.
  assert (∀ cs : CacheStorage,
            (∀ p, p ∈ cs → p.1 ∈ [STATIC_CACHE v; CDN_CACHE v]) →
            filter (λ p, p.1 ∈ [STATIC_CACHE v; CDN_CACHE v]) cs = cs) as Hid.
  { induction cs as [|p cs IH]; intros Hcs; [done |].
    rewrite filter_cons, decide_True by (apply Hcs; by left).
    f_equal. apply IH. intros q Hq. apply Hcs. by right. }
  apply Hid. intros [n c] Hin. apply Hall.
  unfold cs_keys. apply list_elem_of_fmap. by exists (n, c).
Qed.

(** ** The further properties at concrete inputs *)


Lemma fetch_keeps_entries_witness :
  is_Some (entry (STATIC_CACHE CACHE_VERSION) (href (url Sample.html_request))
             (caches Sample.visited_world)) ∧
  is_Some (entry (STATIC_CACHE CACHE_VERSION) (href (url Sample.html_request))
             (caches (handle_all CACHE_VERSION Sample.traffic Sample.visited_world))).
Proof.
  assert (is_Some (entry (STATIC_CACHE CACHE_VERSION)
                     (href (url Sample.html_request))
                     (caches Sample.visited_world))) as H
    by (vm_compute; by eexists).
  split; [exact H |].
  exact (fetch_keeps_entries CACHE_VERSION Sample.traffic Sample.visited_world
           _ _ eq_refl H).
Defined.

Lemma fetch_leaves_other_partitions_witness :
  cs_find "user-notes"
    (caches (handle_all CACHE_VERSION Sample.traffic Sample.page_cache_world))
  = Some {[ "https://artemis.example/note/1" := Sample.page ]}.
Proof.
  rewrite (fetch_leaves_other_partitions CACHE_VERSION Sample.traffic
             Sample.page_cache_world "user-notes" eq_refl).
  - reflexivity.
  - intros Hin. repeat (apply elem_of_cons in Hin as [Hin|Hin]);
      try discriminate Hin. by apply elem_of_nil in Hin.
Defined.

Lemma strategies_keep_to_their_partition_witness :
  entry (STATIC_CACHE CACHE_VERSION) (href (url Sample.html_request))
    (caches (dispatch_fetch CACHE_VERSION (Sample.answering Sample.script)
               Sample.cdn_request Sample.visited_world).2)
  = Some Sample.page.
Proof.
  destruct (strategies_keep_to_their_partition CACHE_VERSION
              (Sample.answering Sample.script) Sample.cdn_request
              Sample.visited_world (href (url Sample.html_request)) eq_refl)
    as [_ H].
  rewrite (H eq_refl). vm_compute. reflexivity.
Defined.


Lemma non_200_is_fetched_again_witness :
  status Sample.not_found ≠ 200 ∧
  fetches
    (log (dispatch_fetch CACHE_VERSION (Sample.answering Sample.script)
            Sample.cdn_request
            (dispatch_fetch CACHE_VERSION (Sample.answering Sample.not_found)
               Sample.cdn_request Sample.empty_world).2).2)
  = [FetchRequest Sample.cdn_request; FetchRequest Sample.cdn_request].
Proof.
  assert (status Sample.not_found ≠ 200) as Hs by discriminate.
  split; [exact Hs |].
  destruct (non_200_is_fetched_again CACHE_VERSION
              (Sample.answering Sample.not_found)
              (Sample.answering Sample.script)
              Sample.cdn_request Sample.empty_world Sample.not_found
              eq_refl eq_refl eq_refl eq_refl eq_refl eq_refl Hs)
    as (_ & H & _).
  rewrite H. vm_compute. reflexivity.
Defined.

Lemma one_fetch_per_request_witness :
  fetches (log (dispatch_fetch CACHE_VERSION (Sample.answering Sample.page)
                  Sample.html_request Sample.empty_world).2)
  = [FetchRequest Sample.html_request] ∧
  fetches (log (dispatch_fetch CACHE_VERSION (Sample.answering Sample.page)
                  Sample.cdn_request Sample.cached_world).2)
  = [].
Proof.
  split.
  - destruct (one_fetch_per_request CACHE_VERSION (Sample.answering Sample.page)
                Sample.html_request Sample.empty_world eq_refl) as [H _].
    rewrite H; [reflexivity |]. split; [reflexivity | by left].
  - destruct (one_fetch_per_request CACHE_VERSION (Sample.answering Sample.page)
                Sample.cdn_request Sample.cached_world eq_refl) as [_ H].
    rewrite H; [reflexivity |].
    intros [_ [Hp | [_ Hmiss]]]; [discriminate Hp |].
    vm_compute in Hmiss. discriminate Hmiss.
Defined.

Lemma network_error_iff_witness :
  (dispatch_fetch CACHE_VERSION Sample.offline Sample.html_request
     Sample.empty_world).1 = NetworkError.
Proof.
  apply (network_error_iff CACHE_VERSION Sample.offline Sample.html_request
           Sample.empty_world eq_refl).
  split; [reflexivity |]. split; [by eexists |]. left. split; reflexivity.
Defined.

Lemma offline_changes_no_entry_witness :
  entry (STATIC_CACHE CACHE_VERSION) (href (url Sample.html_request))
    (caches (dispatch_fetch CACHE_VERSION Sample.offline Sample.html_request
               Sample.visited_world).2)
  = Some Sample.page.
Proof.
  rewrite (offline_changes_no_entry CACHE_VERSION Sample.offline
             Sample.html_request Sample.visited_world
             "TypeError: Failed to fetch" _ _ eq_refl eq_refl).
  vm_compute. reflexivity.
Defined.

Lemma install_keeps_entries_witness :
  is_Some (entry (STATIC_CACHE CACHE_VERSION) "./artemis.html"
             (caches (oninstall CACHE_VERSION Sample.offline
                        Sample.reinstall_world).2)).
Proof.
  apply (install_keeps_entries CACHE_VERSION Sample.offline
           Sample.reinstall_world).
  vm_compute. by eexists.
Defined.

Lemma prefetched_script_is_served_witness :
  href (url Sample.d3_request) ∈ CDN_PREFETCH ∧
  answer_of
    (dispatch_fetch CACHE_VERSION Sample.offline Sample.d3_request
       (oninstall CACHE_VERSION (Sample.answering Sample.script)
          Sample.empty_world).2).1
  = Some (Some Sample.script).
Proof.
  assert (href (url Sample.d3_request) ∈ CDN_PREFETCH) as Hin
    by (right; left).
  split; [exact Hin |].
  destruct (prefetched_script_is_served CACHE_VERSION
              (Sample.answering Sample.script) Sample.offline
              Sample.empty_world Sample.d3_request Sample.script
              eq_refl Hin eq_refl eq_refl eq_refl eq_refl eq_refl eq_refl)
    as [H _].
  exact H.
Defined.

Lemma activate_without_stale_witness :
  caches (onactivate CACHE_VERSION Sample.visited_world).2
  = caches Sample.visited_world.
Proof.
  apply (activate_without_stale CACHE_VERSION Sample.visited_world).
  intros name Hin.
  repeat (apply elem_of_cons in Hin as [->|Hin]).
  - by left.
  - right. by left.
  - by apply elem_of_nil in Hin.
Defined.
